(** * VulnScan: classification and report assembly of [security_scan.py]

    A shallow embedding of [run_ssl_scan] and [create_pdf].

    - A Python [str] is a sequence of Unicode code points: [list N].
    - A Python [dict] is an insertion-ordered association list with
      unique keys; assignment to an existing key keeps its position.
    - An image is the list of [ImageDraw] calls made on it, in order.
    - What the code reads from its surroundings (the clock, the cover
      image file, the font files, the scanner's standard output, the
      targets file) is a field of [World].
    - A subscript that can raise ([KeyError], [IndexError]) returns in
      the [result] monad.
    Console output ([print]) is not modelled.  Opening the files, running
    the scanner and writing the document are taken to succeed: nothing
    below says that a run as a whole cannot fail. *)

From Stdlib Require Import Strings.String Strings.Ascii Numbers.DecimalString.
From Stdlib Require Import List Bool Arith ZArith NArith Lia Sorting.Sorted.
Import ListNotations.

(** ** Strings *)

Definition char := N.
Definition str := list char.

(** An ASCII literal of the source, as code points. *)
Definition lit (s : string) : str :=
  map N_of_ascii (list_ascii_of_string s).

Definition newline : char := 10%N.

(** [str(n)] for a length. *)
Definition str_of_nat (n : nat) : str :=
  lit (NilEmpty.string_of_uint (Nat.to_uint n)).

Fixpoint str_eqb (a b : str) : bool :=
  match a, b with
  | [], [] => true
  | x :: a', y :: b' => N.eqb x y && str_eqb a' b'
  | _, _ => false
  end.

(** [s.startswith(prefix)] *)
Fixpoint startswith (s prefix : str) {struct prefix} : bool :=
  match prefix, s with
  | [], _ => true
  | _ :: _, [] => false
  | a :: p', b :: s' => N.eqb a b && startswith s' p'
  end.

(** [sub in s] *)
Fixpoint contains (s sub : str) : bool :=
  startswith s sub ||
  match s with
  | [] => false
  | _ :: s' => contains s' sub
  end.

(** [s.split(sep)] for a separator of one character. *)
Fixpoint split (s : str) (sep : char) : list str :=
  match s with
  | [] => [[]]
  | c :: s' =>
      if N.eqb c sep then [] :: split s' sep
      else match split s' sep with
           | [] => [[c]]
           | l :: ls => (c :: l) :: ls
           end
  end.

(** [''.join(parts)] *)
Definition join_empty (parts : list str) : str := concat parts.

(** [sep.join(parts)] *)
Fixpoint join (sep : str) (parts : list str) : str :=
  match parts with
  | [] => []
  | [p] => p
  | p :: ps => p ++ sep ++ join sep ps
  end.

(** [c.isspace()] : the code points Python treats as whitespace. *)
Definition isspace (c : char) : bool :=
  ((9 <=? c) && (c <=? 13) || (28 <=? c) && (c <=? 32)
   || (c =? 133) || (c =? 160) || (c =? 5760)
   || (8192 <=? c) && (c <=? 8202)
   || (c =? 8232) || (c =? 8233) || (c =? 8239) || (c =? 8287)
   || (c =? 12288))%N.

Fixpoint lstrip (s : str) : str :=
  match s with
  | c :: s' => if isspace c then lstrip s' else s
  | [] => []
  end.

(** [s.strip()] *)
Definition strip (s : str) : str := rev (lstrip (rev (lstrip s))).

(** ** The [result] monad: a value or a raised exception *)

Inductive exn := KeyError | IndexError.

Inductive result (A : Type) : Type :=
| Ok (a : A)
| Raise (e : exn).
Arguments Ok {A} a.
Arguments Raise {A} e.

Definition bind {A B} (m : result A) (k : A -> result B) : result B :=
  match m with
  | Ok a => k a
  | Raise e => Raise e
  end.

Notation "x <- m ;; k" := (bind m (fun x => k))
  (at level 61, m at next level, right associativity).

(** A list comprehension [[x for x in xs if cond(x)]] whose condition
    can raise. *)
Fixpoint filterM {A} (cond : A -> result bool) (xs : list A) : result (list A) :=
  match xs with
  | [] => Ok []
  | x :: xs' =>
      b <- cond x ;;
      rest <- filterM cond xs' ;;
      Ok (if b then x :: rest else rest)
  end.

(** ** Dictionaries *)

Definition dict (V : Type) := list (str * V).

Definition keys {V} (d : dict V) : list str := map fst d.

Fixpoint dict_get {V} (d : dict V) (k : str) : option V :=
  match d with
  | [] => None
  | (k', v) :: d' => if str_eqb k' k then Some v else dict_get d' k
  end.

(** [d[k]] *)
Definition getitem {V} (d : dict V) (k : str) : result V :=
  match dict_get d k with
  | Some v => Ok v
  | None => Raise KeyError
  end.

(** [d[k] = v] *)
Fixpoint dict_set {V} (d : dict V) (k : str) (v : V) : dict V :=
  match d with
  | [] => [(k, v)]
  | (k', v') :: d' =>
      if str_eqb k' k then (k', v) :: d' else (k', v') :: dict_set d' k v
  end.

(** The invariant of a Python dict: no key occurs twice. *)
Definition wf_dict {V} (d : dict V) : Prop := NoDup (keys d).

(** ** Images *)

Inductive colour := Black | White | Red | Green | Orange.

(** [ImageFont.truetype(file, size)] or [ImageFont.load_default()]. *)
Inductive font :=
| TrueType (file : str) (size : Z)
| DefaultFont.

Inductive draw_op :=
| Rectangle (top_left bottom_right : Z * Z)
            (fill outline : option colour) (width : Z)
| Text (xy : Z * Z) (text : str) (fnt : font) (fill : colour).

(** The decoded contents of an image file. *)
Definition pixels := list N.

Inductive image :=
| Drawn (size : Z * Z) (background : colour) (ops : list draw_op)
    (* Image.new("RGB", size, background), then the draw calls *)
| Resized (size : Z * Z) (source : pixels).
    (* Image.open(path).convert("RGB").resize(size) *)

(** ** What the program reads from outside *)

Record World := {
  now : str;                  (* datetime.now().strftime("%Y-%m-%d %H:%M:%S") *)
  path_exists : str -> bool;  (* os.path.exists *)
  read_text : str -> str;     (* the text of a file, newlines as "\n" *)
  image_file : str -> pixels; (* Image.open *)
  font_found : str -> bool;   (* ImageFont.truetype finds the file *)
  nmap_stdout : str -> str    (* result.stdout of the scan of a target *)
}.

(** ** Module constants *)

Definition WEAK_TLS_INDICATORS : list str :=
  map lit ["SSLv2"; "SSLv3"; "TLSv1.0"; "TLSv1.1"; "EXP"; "LOW"; "MEDIUM";
           "CBC"; "RC4"; "3DES"]%string.

Definition COVER_IMAGE_PATH : str := lit "/../../TLS.png".

Definition NO_OUTPUT : str := lit "No output or scan failed.".

Definition bullet : char := 8226%N.

(** [any(weak in s for weak in WEAK_TLS_INDICATORS)] *)
Definition any_weak (s : str) : bool :=
  existsb (fun weak => contains s weak) WEAK_TLS_INDICATORS.

(** ** [create_pdf] *)

Record fonts := {
  title_font : font;
  header_font : font;
  body_font : font
}.

(** The [try] block: one missing file sends all three to the default. *)
Definition load_fonts (w : World) : fonts :=
  if font_found w (lit "Times New Roman Bold.ttf")
     && font_found w (lit "Times New Roman.ttf")
  then {| title_font := TrueType (lit "Times New Roman Bold.ttf") 50;
          header_font := TrueType (lit "Times New Roman.ttf") 35;
          body_font := TrueType (lit "Times New Roman.ttf") 22 |}
  else {| title_font := DefaultFont;
          header_font := DefaultFont;
          body_font := DefaultFont |}.

(** The cover image, when its file exists. *)
Definition cover_image (w : World) : list image :=
  if path_exists w COVER_IMAGE_PATH
  then [Resized (1000, 1454)%Z (image_file w COVER_IMAGE_PATH)]
  else [].

(** Classify Targets: the loop body and the loop, on the pair
    [(strong_targets, weak_targets)]. *)
Definition classify_step (st : list str * dict (list str))
                         (item : str * str) : list str * dict (list str) :=
  let (strong_targets, weak_targets) := st in
  let (target, output) := item in
  if any_weak output
  then (strong_targets,
        dict_set weak_targets target (filter any_weak (split output newline)))
  else (strong_targets ++ [target], weak_targets).

Definition classify (scan_results : dict str) : list str * dict (list str) :=
  fold_left classify_step scan_results ([], []).

(** The condition of the High-Risk comprehension, with both subscripts. *)
Definition is_high_risk (weak_targets : dict (list str)) (t : str) : result bool :=
  issues <- getitem weak_targets t ;;
  if contains (join_empty issues) (lit "TLS 1.0") then Ok true
  else issues' <- getitem weak_targets t ;;
       Ok (contains (join_empty issues') (lit "RC4")).

Definition high_risk (weak_targets : dict (list str)) : result (list str) :=
  filterM (is_high_risk weak_targets) (keys weak_targets).

Definition is_medium_risk (weak_targets : dict (list str)) (t : str) : result bool :=
  issues <- getitem weak_targets t ;;
  Ok (contains (join_empty issues) (lit "CBC")).

Definition medium_risk (weak_targets : dict (list str)) : result (list str) :=
  filterM (is_medium_risk weak_targets) (keys weak_targets).

Open Scope Z_scope.

(** The cover page, given the five numbers of its findings summary. *)
Definition cover_drawing (f : fonts) (scan_date : str)
    (total strong weak high medium : nat) : image :=
  Drawn (1000, 1400) White
    [ Rectangle (0, 0) (1000, 200) (Some Black) None 1;
      Text (250, 80) (lit "TLS/SSL Scan Report") (title_font f) Red;
      Rectangle (0, 1250) (1000, 1400) (Some Black) None 1;
      Text (300, 1300) (lit "Confidential Security Report") (header_font f) Red;
      Text (100, 300) (lit "Prepared by: Security Team") (header_font f) Black;
      Text (100, 350) (lit "Date: " ++ scan_date) (header_font f) Black;
      Text (100, 400) (lit "Report ID: TLS-SEC-2025-001") (header_font f) Black;
      Text (100, 500) (lit "Scope: External TLS/SSL Security Assessment")
           (header_font f) Black;
      Text (100, 550)
           (lit "Assessment Methodology: Automated & Manual Verification")
           (header_font f) Black;
      Text (100, 600) (lit "Scanner Used: Nmap (ssl-enum-ciphers)")
           (header_font f) Black;
      Text (100, 700) (lit " Security Findings Summary:") (header_font f) Red;
      Text (100, 750)
           (bullet :: lit " Number of Targets Scanned: "
              ++ str_of_nat total) (body_font f) Black;
      Text (100, 800)
           (bullet :: lit " Targets with Strong Ciphers: "
              ++ str_of_nat strong) (body_font f) Green;
      Text (100, 850)
           (bullet :: lit " Targets with Weak Ciphers: "
              ++ str_of_nat weak) (body_font f) Red;
      Text (100, 900)
           (bullet :: lit " High-Risk Findings: " ++ str_of_nat high)
           (body_font f) Red;
      Text (100, 950)
           (bullet :: lit " Medium-Risk Findings: "
              ++ str_of_nat medium) (body_font f) Orange;
      Text (100, 1000)
           (bullet :: lit " Recommended Actions: Immediate Mitigation Required")
           (body_font f) Black ].

Definition cover_page (f : fonts) (scan_date : str) (scan_results : dict str)
    (strong_targets : list str) (weak_targets : dict (list str)) : result image :=
  high <- high_risk weak_targets ;;
  medium <- medium_risk weak_targets ;;
  Ok (cover_drawing f scan_date (length scan_results) (length strong_targets)
        (length weak_targets) (length high) (length medium)).

(** The loops of the summary page thread the cursor [y_position]; each
    returns the calls it makes and the cursor it leaves. *)
Fixpoint draw_strong (f : fonts) (y_position : Z) (strong_targets : list str)
    : list draw_op * Z :=
  match strong_targets with
  | [] => ([], y_position)
  | target :: rest =>
      let (ops, y) := draw_strong f (y_position + 30) rest in
      (Text (120, y_position) (lit " " ++ target) (body_font f) Black :: ops, y)
  end.

Fixpoint draw_issues (f : fonts) (y_position : Z) (issues : list str)
    : list draw_op * Z :=
  match issues with
  | [] => ([], y_position)
  | issue :: rest =>
      let (ops, y) := draw_issues f (y_position + 25) rest in
      (Text (140, y_position) (lit " " ++ strip issue) (body_font f) Red :: ops, y)
  end.

Fixpoint draw_weak (f : fonts) (y_position : Z) (items : dict (list str))
    : list draw_op * Z :=
  match items with
  | [] => ([], y_position)
  | (target, issues) :: rest =>
      let (ops1, y1) := draw_issues f (y_position + 30) issues in
      let (ops2, y2) := draw_weak f (y1 + 20) rest in
      (Text (120, y_position) (lit " " ++ target ++ lit ":") (body_font f) Black
         :: ops1 ++ ops2, y2)
  end.

Definition summary_page (f : fonts) (strong_targets : list str)
    (weak_targets : dict (list str)) : image :=
  let y_position := 150 in
  let ops1 :=
    [Text (100, y_position) (lit " Strong Cipher Configuration:")
          (header_font f) Black] in
  let y_position := y_position + 50 in
  let (ops2, y_position) :=
    match strong_targets with
    | _ :: _ => draw_strong f y_position strong_targets
    | [] =>
        ([Text (120, y_position) (lit " No strong cipher configurations found!")
               (body_font f) Black], y_position + 30)
    end in
  let y_position := y_position + 50 in
  let ops3 :=
    [Text (100, y_position) (lit " Weak Ciphers/Protocols Detected:")
          (header_font f) Black] in
  let y_position := y_position + 50 in
  let ops4 :=
    match weak_targets with
    | _ :: _ => fst (draw_weak f y_position weak_targets)
    | [] =>
        [Text (120, y_position) (lit " No weak configurations detected!")
              (body_font f) Black]
    end in
  Drawn (1000, 1400) White (ops1 ++ ops2 ++ ops3 ++ ops4).

(** The loop over [output.split("\n")] of a Scan Results page: the
    [break] ends it at the first line whose cursor is past 1300. *)
Fixpoint draw_lines (f : fonts) (y_position : Z) (lines : list str)
    : list draw_op :=
  match lines with
  | [] => []
  | line :: rest =>
      if y_position >? 1300 then []
      else
        (if any_weak line
         then Text (70, y_position) line (body_font f) Red
         else Text (70, y_position) line (body_font f) Black)
        :: draw_lines f (y_position + 25) rest
  end.

Definition detail_page (f : fonts) (item : str * str) : image :=
  let (target, output) := item in
  Drawn (1000, 1400) White
    (Text (100, 80) (lit "Scan Result for: " ++ target) (header_font f) Black
     :: Rectangle (50, 200) (950, 1350) None (Some Black) 3
     :: draw_lines f 220 (split output newline)).

(** What [images[0].save(output_pdf, save_all=True, append_images=images[1:])]
    writes. *)
Record document := {
  saved_as : str;
  pages : list image
}.

Definition save (images : list image) (output_pdf : str) : result document :=
  match images with
  | [] => Raise IndexError
  | first :: _ => Ok {| saved_as := output_pdf; pages := first :: skipn 1 images |}
  end.

Definition create_pdf (w : World) (scan_results : dict str) (output_pdf : str)
    (scan_date : str) : result document :=
  let images := cover_image w in
  let f := load_fonts w in
  let (strong_targets, weak_targets) := classify scan_results in
  cover <- cover_page f scan_date scan_results strong_targets weak_targets ;;
  let images := images ++ [cover] in
  let images := images ++ [summary_page f strong_targets weak_targets] in
  let images := images ++ map (detail_page f) scan_results in
  save images output_pdf.

(** ** [run_ssl_scan] *)

(** The loop that fills [scan_results]; a target listed twice is scanned
    twice and keeps one entry. *)
Definition scan_step (w : World) (scan_results : dict str) (target : str)
    : dict str :=
  dict_set scan_results target
    (match nmap_stdout w target with
     | [] => NO_OUTPUT
     | stdout => stdout
     end).

(** [None] is the early [return] after an error message.  The lines of
    the file are stripped, so iterating over them is splitting at "\n". *)
Definition run_ssl_scan (w : World) (targets_file output_pdf : str)
    : result (option document) :=
  if negb (path_exists w targets_file) then Ok None
  else
    let targets :=
      filter (fun line => negb (str_eqb line []))
             (map strip (split (read_text w targets_file) newline)) in
    match targets with
    | [] => Ok None
    | _ :: _ =>
        let scan_date := now w in
        let scan_results := fold_left (scan_step w) targets [] in
        doc <- create_pdf w scan_results output_pdf scan_date ;;
        Ok (Some doc)
    end.

(** ** Classification in closed form

    What the loop computes on a well-formed dictionary, used to state
    and prove the properties below. *)

Definition is_weak_item (item : str * str) : bool := any_weak (snd item).

Definition matched_lines (output : str) : list str :=
  filter any_weak (split output newline).

(** A line of a Scan Results page drawn at cursor [y]. *)
Definition line_op (f : fonts) (y : Z) (line : str) : draw_op :=
  Text (70, y) line (body_font f) (if any_weak line then Red else Black).

(** Lines drawn one below the other from cursor [y], with no bound. *)
Fixpoint place (f : fonts) (y : Z) (lines : list str) : list draw_op :=
  match lines with
  | [] => []
  | line :: rest => line_op f y line :: place f (y + 25) rest
  end.

(** The two risk conditions on a key of the weak dictionary. *)
Definition high_cond (weak_targets : dict (list str)) (t : str) : bool :=
  match dict_get weak_targets t with
  | Some issues =>
      contains (join_empty issues) (lit "TLS 1.0")
      || contains (join_empty issues) (lit "RC4")
  | None => false
  end.

Definition medium_cond (weak_targets : dict (list str)) (t : str) : bool :=
  match dict_get weak_targets t with
  | Some issues => contains (join_empty issues) (lit "CBC")
  | None => false
  end.

Definition strong_of (scan_results : dict str) : list str :=
  map fst (filter (fun item => negb (is_weak_item item)) scan_results).

Definition weak_of (scan_results : dict str) : dict (list str) :=
  map (fun item => (fst item, matched_lines (snd item)))
      (filter is_weak_item scan_results).

(** ** Concrete inputs *)

Definition tls10_scenario : dict str :=
  [(lit "10.0.0.1", lit "TLSv1.0 enabled" ++ [newline] ++ lit "AES256-GCM strong")].

Definition offline : World :=
  {| now := lit "2025-03-01 10:00:00";
     path_exists := fun _ => false;
     read_text := fun _ => [];
     image_file := fun _ => [];
     font_found := fun _ => false;
     nmap_stdout := fun _ => [] |}.

Definition two_hundred_lines : str :=
  join [newline] (repeat (lit "cipher ok") 200).

Definition later : World :=
  {| now := lit "2026-07-15 23:59:59";
     path_exists := fun p => str_eqb p (lit "targets.txt");
     read_text := fun _ => lit "10.0.0.1";
     image_file := fun _ => [];
     font_found := fun _ => false;
     nmap_stdout := fun _ => lit "TLSv1.1 RC4" |}.

(** ** Reading the model

    Projections of draw calls and pages, and the pieces of
    [run_ssl_scan], used to state the properties below. *)

Definition op_y (op : draw_op) : Z :=
  match op with
  | Rectangle (_, y) _ _ _ _ => y
  | Text (_, y) _ _ _ => y
  end.

Definition op_text (op : draw_op) : option str :=
  match op with
  | Rectangle _ _ _ _ _ => None
  | Text _ text _ _ => Some text
  end.

Definition op_font (op : draw_op) : option font :=
  match op with
  | Rectangle _ _ _ _ _ => None
  | Text _ _ fnt _ => Some fnt
  end.

Definition is_red (op : draw_op) : bool :=
  match op with
  | Text _ _ _ Red => true
  | _ => false
  end.

Definition image_ops (page : image) : list draw_op :=
  match page with
  | Drawn _ _ ops => ops
  | Resized _ _ => []
  end.

(** [[line.strip() for line in f if line.strip()]] on the text of the
    targets file. *)
Definition read_targets (text : str) : list str :=
  filter (fun line => negb (str_eqb line []))
         (map strip (split text newline)).

(** [result.stdout if result.stdout else "No output or scan failed."] *)
Definition recorded_output (w : World) (target : str) : str :=
  match nmap_stdout w target with
  | [] => NO_OUTPUT
  | stdout => stdout
  end.

Definition str_eq_dec : forall a b : str, {a = b} + {a <> b} :=
  list_eq_dec N.eq_dec.

(** The lines a summary page writes for its weak targets. *)
Definition weak_section_texts (weak_targets : dict (list str)) : list str :=
  flat_map (fun item =>
              (lit " " ++ fst item ++ lit ":")
              :: map (fun issue => lit " " ++ strip issue) (snd item))
           weak_targets.

Definition issue_count (weak_targets : dict (list str)) : nat :=
  list_sum (map (fun item => length (snd item)) weak_targets).

(** A text drawn in one of the three fonts of [f]; a rectangle has none. *)
Definition in_fonts (f : fonts) (op : draw_op) : Prop :=
  match op with
  | Text _ _ fnt _ =>
      fnt = title_font f \/ fnt = header_font f \/ fnt = body_font f
  | Rectangle _ _ _ _ _ => True
  end.

(** Draw calls with cursors in [[lo, hi)], each below the one before. *)
Definition within (lo hi : Z) (ops : list draw_op) : Prop :=
  Forall (fun op => lo <= op_y op < hi) ops
  /\ StronglySorted Z.lt (map op_y ops).

(** The two sections of the summary page: the calls of the first with
    the cursor it leaves, and the calls of the second from a cursor. *)
Definition strong_section (f : fonts) (strong_targets : list str)
    : list draw_op * Z :=
  match strong_targets with
  | _ :: _ => draw_strong f 200 strong_targets
  | [] =>
      ([Text (120, 200) (lit " No strong cipher configurations found!")
             (body_font f) Black], 230)
  end.

Definition weak_section (f : fonts) (y : Z) (weak_targets : dict (list str))
    : list draw_op :=
  match weak_targets with
  | _ :: _ => fst (draw_weak f y weak_targets)
  | [] =>
      [Text (120, y) (lit " No weak configurations detected!")
            (body_font f) Black]
  end.

(** * Properties *)

(** ** Strings *)

Lemma str_eqb_eq (a b : str) : str_eqb a b = true <-> a = b.
Proof.
  revert b; induction a as [|x a IH]; intros [|y b]; simpl;
    try (split; congruence).
  rewrite andb_true_iff, N.eqb_eq, IH.
  split; [intros [-> ->]; reflexivity | intros H; injection H; auto].
Qed.

Lemma str_eqb_refl (a : str) : str_eqb a a = true.
Proof. apply str_eqb_eq; reflexivity. Qed.

Lemma str_eqb_neq (a b : str) : str_eqb a b = false <-> a <> b.
Proof.
  rewrite <- str_eqb_eq. destruct (str_eqb a b); split; congruence.
Qed.

Lemma startswith_app (s sub : str) :
  startswith s sub = true <-> exists r, s = sub ++ r.
Proof.
  revert s; induction sub as [|a p IH]; intros s; simpl.
  - split; [exists s; reflexivity | reflexivity].
  - destruct s as [|b s].
    + split; [discriminate | intros [r H]; discriminate].
    + rewrite andb_true_iff, N.eqb_eq, IH. split.
      * intros [-> [r ->]]. exists r; reflexivity.
      * intros [r H]. injection H as -> ->. split; [reflexivity | exists r; reflexivity].
Qed.

(** [sub in s] holds exactly when [sub] occurs in [s]. *)
Lemma contains_app (s sub : str) :
  contains s sub = true <-> exists l r, s = l ++ sub ++ r.
Proof.
  induction s as [|c s IH].
  - simpl. rewrite orb_false_r, startswith_app. split.
    + intros [r H]. exists [], r. exact H.
    + intros [l [r H]]. destruct l; [exists r; exact H | discriminate].
  - change (contains (c :: s) sub)
      with (startswith (c :: s) sub || contains s sub).
    rewrite orb_true_iff, startswith_app, IH. split.
    + intros [[r H] | [l [r H]]].
      * exists [], r. exact H.
      * exists (c :: l), r. simpl. rewrite H. reflexivity.
    + intros [[|x l] [r H]].
      * left. exists r. exact H.
      * right. injection H as _ H. exists l, r. exact H.
Qed.

Lemma contains_in_concat (parts : list str) (p sub : str) :
  In p parts -> contains p sub = true ->
  contains (join_empty parts) sub = true.
Proof.
  intros Hin Hc. apply contains_app in Hc as [l [r ->]].
  apply in_split in Hin as [before [after ->]].
  apply contains_app. unfold join_empty.
  exists (concat before ++ l), (r ++ concat after).
  rewrite concat_app. simpl. rewrite <- !app_assoc. reflexivity.
Qed.

Lemma split_not_nil (s : str) (sep : char) : split s sep <> [].
Proof.
  destruct s as [|c s]; simpl; [discriminate|].
  destruct (N.eqb c sep); [discriminate|].
  destruct (split s sep); discriminate.
Qed.

(** A string without the separator starts [s] exactly when it starts
    the first piece of [s]. *)
Lemma startswith_first_piece (sep : char) (s sub : str) :
  ~ In sep sub ->
  startswith s sub = startswith (hd [] (split s sep)) sub.
Proof.
  revert sub; induction s as [|c s IH]; intros sub Hsub; [reflexivity|].
  destruct sub as [|a p]; [reflexivity|].
  simpl split. destruct (N.eqb c sep) eqn:Hc.
  - apply N.eqb_eq in Hc. subst c. simpl.
    destruct (N.eqb a sep) eqn:Ha; [|reflexivity].
    apply N.eqb_eq in Ha. subst a. exfalso. apply Hsub. left. reflexivity.
  - pose proof (split_not_nil s sep) as Hne.
    specialize (IH p). destruct (split s sep) as [|l ls]; [congruence|].
    simpl in *. rewrite IH; [reflexivity|]. intros H. apply Hsub. right. exact H.
Qed.

(** A string without the separator occurs in [s] exactly when it occurs
    in one of the pieces of [s]. *)
Lemma contains_split (sep : char) (s sub : str) :
  ~ In sep sub ->
  contains s sub = existsb (fun piece => contains piece sub) (split s sep).
Proof.
  intros Hsub. induction s as [|c s IH].
  { simpl. destruct (startswith [] sub); reflexivity. }
  change (contains (c :: s) sub)
    with (startswith (c :: s) sub || contains s sub).
  rewrite (startswith_first_piece sep (c :: s) sub Hsub), IH.
  simpl split. destruct (N.eqb c sep).
  - simpl. rewrite orb_false_r. reflexivity.
  - pose proof (split_not_nil s sep) as Hne.
    destruct (split s sep) as [|l ls]; [congruence|].
    simpl. rewrite orb_assoc. reflexivity.
Qed.

Lemma indicators_one_line :
  Forall (fun weak => ~ In newline weak) WEAK_TLS_INDICATORS.
Proof.
  repeat constructor; intros H; vm_compute in H; intuition discriminate.
Qed.

Lemma existsb_swap {A B} (f : A -> B -> bool) (xs : list A) (ys : list B) :
  existsb (fun x => existsb (fun y => f x y) ys) xs
  = existsb (fun y => existsb (fun x => f x y) xs) ys.
Proof.
  apply eq_true_iff_eq. rewrite !existsb_exists. split.
  - intros [x [Hx H]]. apply existsb_exists in H as [y [Hy H]].
    exists y. split; [exact Hy|]. apply existsb_exists. exists x. auto.
  - intros [y [Hy H]]. apply existsb_exists in H as [x [Hx H]].
    exists x. split; [exact Hx|]. apply existsb_exists. exists y. auto.
Qed.

Lemma existsb_agree {A} (f g : A -> bool) (xs : list A) :
  Forall (fun x => f x = g x) xs -> existsb f xs = existsb g xs.
Proof.
  induction 1 as [|x xs Hx _ IH]; simpl; [reflexivity|].
  rewrite Hx, IH. reflexivity.
Qed.

(** The test on the whole output and the test line by line agree. *)
Lemma any_weak_split (output : str) :
  any_weak output = existsb any_weak (split output newline).
Proof.
  unfold any_weak.
  rewrite (existsb_swap (fun line weak => contains line weak)).
  apply existsb_agree.
  eapply Forall_impl; [|exact indicators_one_line].
  intros weak Hw. apply contains_split. exact Hw.
Qed.

Lemma any_weak_iff (s : str) :
  any_weak s = true <->
  exists weak, In weak WEAK_TLS_INDICATORS /\ contains s weak = true.
Proof. unfold any_weak. apply existsb_exists. Qed.

(** ** Dictionaries *)

Lemma dict_set_fresh {V} (d : dict V) (k : str) (v : V) :
  ~ In k (keys d) -> dict_set d k v = d ++ [(k, v)].
Proof.
  induction d as [|[k' v'] d IH]; simpl; intros Hk; [reflexivity|].
  destruct (str_eqb k' k) eqn:E.
  - apply str_eqb_eq in E. tauto.
  - rewrite IH; tauto.
Qed.

Lemma dict_get_absent {V} (d : dict V) (k : str) :
  ~ In k (keys d) <-> dict_get d k = None.
Proof.
  induction d as [|[k' v'] d IH]; simpl; [tauto|].
  destruct (str_eqb k' k) eqn:E.
  - apply str_eqb_eq in E. split; [tauto | discriminate].
  - apply str_eqb_neq in E. rewrite <- IH. tauto.
Qed.

Lemma dict_get_item {V} (d : dict V) (k : str) (v : V) :
  wf_dict d -> In (k, v) d -> dict_get d k = Some v.
Proof.
  unfold wf_dict. induction d as [|[k' v'] d IH]; simpl; [tauto|].
  intros Hnd [H | H]; inversion Hnd as [|? ? Hk' Hd]; subst.
  - injection H as -> ->. rewrite str_eqb_refl. reflexivity.
  - destruct (str_eqb k' k) eqn:E; [|auto].
    apply str_eqb_eq in E. subst k'. exfalso. apply Hk'.
    change k with (fst (k, v)). apply in_map. exact H.
Qed.

Lemma dict_get_key {V} (d : dict V) (k : str) :
  In k (keys d) -> exists v, dict_get d k = Some v /\ In (k, v) d.
Proof.
  induction d as [|[k' v'] d IH]; simpl; [tauto|].
  intros H. destruct (str_eqb k' k) eqn:E.
  - apply str_eqb_eq in E. subst k'. exists v'. auto.
  - apply str_eqb_neq in E. destruct H as [H | H]; [congruence|].
    destruct (IH H) as [v [Hv Hin]]. exists v. auto.
Qed.

Lemma dict_get_in {V} (d : dict V) (k : str) (v : V) :
  dict_get d k = Some v -> In (k, v) d.
Proof.
  induction d as [|[k' v'] d IH]; simpl; [discriminate|].
  destruct (str_eqb k' k) eqn:E; [|auto].
  apply str_eqb_eq in E. intros H. injection H as ->. subst. auto.
Qed.

Lemma keys_filter_sub {V} (keep : str * V -> bool) (d : dict V) (k : str) :
  In k (keys (filter keep d)) -> In k (keys d).
Proof.
  unfold keys. rewrite !in_map_iff. intros [item [Hk Hitem]].
  apply filter_In in Hitem. exists item. tauto.
Qed.

(** Dropping items keeps a dictionary well formed. *)
Lemma wf_filter {V} (keep : str * V -> bool) (d : dict V) :
  wf_dict d -> wf_dict (filter keep d).
Proof.
  unfold wf_dict. induction d as [|item d IH]; simpl; [auto|].
  intros Hwf. inversion Hwf as [|? ? Hfresh Hrest]; subst.
  destruct (keep item); [|auto]. simpl. constructor; [|auto].
  intros Hin. apply Hfresh. apply (keys_filter_sub keep). exact Hin.
Qed.

(** ** Classification in closed form *)

Lemma keys_weak_of (scan_results : dict str) :
  keys (weak_of scan_results) = map fst (filter is_weak_item scan_results).
Proof. unfold keys, weak_of. rewrite map_map. reflexivity. Qed.

Lemma classify_loop (scan_results : dict str) :
  forall strong_targets weak_targets,
    wf_dict scan_results ->
    (forall k, In k (keys scan_results) -> ~ In k (keys weak_targets)) ->
    fold_left classify_step scan_results (strong_targets, weak_targets)
    = (strong_targets ++ strong_of scan_results,
       weak_targets ++ weak_of scan_results).
Proof.
  unfold wf_dict.
  induction scan_results as [|[target output] r IH]; intros s0 w0 Hnd Hfresh.
  - simpl. rewrite !app_nil_r. reflexivity.
  - inversion Hnd as [|? ? Ht Hr]; subst.
    simpl fold_left. unfold strong_of, weak_of, is_weak_item. simpl filter.
    simpl snd. destruct (any_weak output) eqn:E; simpl negb; cbv iota.
    + rewrite dict_set_fresh by (apply Hfresh; left; reflexivity).
      rewrite IH; [| exact Hr |].
      * simpl. rewrite <- app_assoc. reflexivity.
      * intros k Hk. unfold keys. rewrite map_app, in_app_iff. simpl.
        intros [H | [H | []]].
        -- apply (Hfresh k); [right; exact Hk | exact H].
        -- subst k. apply Ht. exact Hk.
    + rewrite IH; [| exact Hr |].
      * simpl. rewrite <- app_assoc. reflexivity.
      * intros k Hk. apply Hfresh. right. exact Hk.
Qed.

Lemma classify_closed (scan_results : dict str) :
  wf_dict scan_results ->
  classify scan_results = (strong_of scan_results, weak_of scan_results).
Proof.
  intros H. unfold classify. rewrite classify_loop; auto.
Qed.

Lemma wf_weak_of (scan_results : dict str) :
  wf_dict scan_results -> wf_dict (weak_of scan_results).
Proof.
  intros Hwf. unfold wf_dict. rewrite keys_weak_of.
  apply (wf_filter is_weak_item). exact Hwf.
Qed.

Lemma in_strong_of (scan_results : dict str) (target : str) :
  In target (strong_of scan_results) <->
  exists output, In (target, output) scan_results /\ any_weak output = false.
Proof.
  unfold strong_of. rewrite in_map_iff. split.
  - intros [[t o] [Ht H]]. apply filter_In in H as [H E]. simpl in *. subst t.
    exists o. split; [exact H|]. unfold is_weak_item in E. simpl in E.
    destruct (any_weak o); [discriminate | reflexivity].
  - intros [o [H E]]. exists (target, o). split; [reflexivity|].
    apply filter_In. split; [exact H|]. unfold is_weak_item. simpl.
    rewrite E. reflexivity.
Qed.

Lemma in_weak_of (scan_results : dict str) (target : str) (issues : list str) :
  In (target, issues) (weak_of scan_results) <->
  exists output, In (target, output) scan_results /\ any_weak output = true
                 /\ issues = matched_lines output.
Proof.
  unfold weak_of. rewrite in_map_iff. split.
  - intros [[t o] [Ht H]]. apply filter_In in H as [H E].
    simpl in Ht. injection Ht as Ht1 Ht2. subst. exists o. auto.
  - intros [o [H [E ->]]]. exists (target, o). split; [reflexivity|].
    apply filter_In. auto.
Qed.

Lemma item_unique {V} (d : dict V) (k : str) (v v' : V) :
  wf_dict d -> In (k, v) d -> In (k, v') d -> v = v'.
Proof.
  intros Hwf H H'. apply (dict_get_item _ _ _ Hwf) in H, H'. congruence.
Qed.

(** What the weak dictionary holds for a target of the input. *)
Lemma weak_of_get (scan_results : dict str) (target output : str) :
  wf_dict scan_results -> In (target, output) scan_results ->
  dict_get (weak_of scan_results) target
  = if any_weak output then Some (matched_lines output) else None.
Proof.
  intros Hwf Hin. destruct (any_weak output) eqn:E.
  - apply dict_get_item; [apply wf_weak_of; exact Hwf|].
    apply in_weak_of. exists output. auto.
  - apply dict_get_absent. rewrite keys_weak_of, in_map_iff.
    intros [[t o] [Ht H]]. apply filter_In in H as [H Eo]. simpl in Ht. subst t.
    rewrite (item_unique _ _ _ _ Hwf Hin H) in E. unfold is_weak_item in Eo.
    simpl in Eo. congruence.
Qed.

(** ** The risk counts never raise *)

Lemma filterM_total {A} (cond : A -> result bool) (p : A -> bool) (xs : list A) :
  (forall x, In x xs -> cond x = Ok (p x)) ->
  filterM cond xs = Ok (filter p xs).
Proof.
  induction xs as [|x xs IH]; intros H; [reflexivity|].
  simpl. rewrite (H x) by (left; reflexivity). simpl.
  rewrite IH by (intros y Hy; apply H; right; exact Hy). simpl.
  destruct (p x); reflexivity.
Qed.

Lemma is_high_risk_key (weak_targets : dict (list str)) (t : str) :
  In t (keys weak_targets) ->
  is_high_risk weak_targets t = Ok (high_cond weak_targets t).
Proof.
  intros H. apply dict_get_key in H as [issues [H _]].
  unfold is_high_risk, high_cond, getitem. rewrite H. simpl.
  destruct (contains (join_empty issues) (lit "TLS 1.0")); reflexivity.
Qed.

Lemma is_medium_risk_key (weak_targets : dict (list str)) (t : str) :
  In t (keys weak_targets) ->
  is_medium_risk weak_targets t = Ok (medium_cond weak_targets t).
Proof.
  intros H. apply dict_get_key in H as [issues [H _]].
  unfold is_medium_risk, medium_cond, getitem. rewrite H. reflexivity.
Qed.

Lemma high_risk_total (weak_targets : dict (list str)) :
  high_risk weak_targets
  = Ok (filter (high_cond weak_targets) (keys weak_targets)).
Proof. apply filterM_total. apply is_high_risk_key. Qed.

Lemma medium_risk_total (weak_targets : dict (list str)) :
  medium_risk weak_targets
  = Ok (filter (medium_cond weak_targets) (keys weak_targets)).
Proof. apply filterM_total. apply is_medium_risk_key. Qed.

(** ** [create_pdf] in closed form *)

Lemma create_pdf_total (w : World) (scan_results : dict str)
    (output_pdf scan_date : str) :
  create_pdf w scan_results output_pdf scan_date
  = let f := load_fonts w in
    let strong_targets := fst (classify scan_results) in
    let weak_targets := snd (classify scan_results) in
    Ok {| saved_as := output_pdf;
          pages :=
            cover_image w
            ++ [cover_drawing f scan_date (length scan_results)
                  (length strong_targets) (length weak_targets)
                  (length (filter (high_cond weak_targets) (keys weak_targets)))
                  (length (filter (medium_cond weak_targets) (keys weak_targets)));
                summary_page f strong_targets weak_targets]
            ++ map (detail_page f) scan_results |}.
Proof.
  unfold create_pdf, cover_page.
  destruct (classify scan_results) as [strong_targets weak_targets]. simpl fst. simpl snd.
  rewrite high_risk_total, medium_risk_total. cbv zeta. unfold bind.
  rewrite <- !app_assoc. simpl app.
  unfold cover_image. destruct (path_exists w COVER_IMAGE_PATH); reflexivity.
Qed.

(** ** The loop of a Scan Results page *)

Lemma draw_lines_step (f : fonts) (y : Z) (line : str) (rest : list str) :
  draw_lines f y (line :: rest)
  = if y >? 1300 then [] else line_op f y line :: draw_lines f (y + 25) rest.
Proof.
  unfold line_op. simpl. destruct (y >? 1300); [reflexivity|].
  destruct (any_weak line); reflexivity.
Qed.

(** The call at position [k] of the loop started at cursor [y]. *)
Lemma draw_lines_nth (f : fonts) (lines : list str) :
  forall (y : Z) (k : nat),
    nth_error (draw_lines f y lines) k
    = if y + 25 * Z.of_nat k >? 1300 then None
      else option_map (line_op f (y + 25 * Z.of_nat k)) (nth_error lines k).
Proof.
  induction lines as [|line rest IH]; intros y k.
  - simpl. destruct k; destruct (_ >? 1300); reflexivity.
  - rewrite draw_lines_step. destruct (y >? 1300) eqn:Ey.
    + apply Z.gtb_lt in Ey.
      assert ((y + 25 * Z.of_nat k >? 1300) = true) as ->
        by (apply Z.gtb_lt; lia).
      destruct k; reflexivity.
    + destruct k as [|k].
      * simpl. replace (y + 0) with y by lia. rewrite Ey. reflexivity.
      * simpl nth_error. rewrite IH.
        replace (y + 25 + 25 * Z.of_nat k) with (y + 25 * Z.of_nat (S k)) by lia.
        reflexivity.
Qed.

Lemma place_nth (f : fonts) (lines : list str) :
  forall (y : Z) (k : nat),
    nth_error (place f y lines) k
    = option_map (line_op f (y + 25 * Z.of_nat k)) (nth_error lines k).
Proof.
  induction lines as [|line rest IH]; intros y k.
  - destruct k; reflexivity.
  - destruct k as [|k]; simpl.
    + replace (y + 0) with y by lia. reflexivity.
    + rewrite IH.
      replace (y + 25 + 25 * Z.of_nat k) with (y + 25 * Z.of_nat (S k)) by lia.
      reflexivity.
Qed.

(** From cursor 220 the loop draws the first 44 lines and nothing else. *)
Lemma draw_lines_first_44 (f : fonts) (lines : list str) :
  draw_lines f 220 lines = place f 220 (firstn 44 lines).
Proof.
  apply nth_error_ext. intros k.
  rewrite draw_lines_nth, place_nth.
  destruct (Nat.ltb k 44) eqn:Ek.
  - apply Nat.ltb_lt in Ek.
    assert ((220 + 25 * Z.of_nat k >? 1300) = false) as ->
      by (rewrite Z.gtb_ltb; apply Z.ltb_ge; lia).
    rewrite nth_error_firstn. apply Nat.ltb_lt in Ek. rewrite Ek. reflexivity.
  - apply Nat.ltb_ge in Ek.
    assert ((220 + 25 * Z.of_nat k >? 1300) = true) as ->
      by (apply Z.gtb_lt; lia).
    rewrite nth_error_firstn. apply Nat.ltb_ge in Ek. rewrite Ek. reflexivity.
Qed.

(** ** Verdicts *)

Lemma length_strong_weak (scan_results : dict str) :
  (length (strong_of scan_results) + length (weak_of scan_results)
   = length scan_results)%nat.
Proof.
  unfold strong_of, weak_of. rewrite !length_map.
  induction scan_results as [|item r IH]; [reflexivity|].
  simpl. destruct (is_weak_item item); simpl; lia.
Qed.

Lemma weak_key_iff (scan_results : dict str) (target output : str) :
  wf_dict scan_results -> In (target, output) scan_results ->
  (In target (keys (weak_of scan_results)) <-> any_weak output = true).
Proof.
  intros Hwf Hin. pose proof (weak_of_get _ _ _ Hwf Hin) as Hget. split.
  - intros H. apply dict_get_key in H as [v [H _]].
    destruct (any_weak output); congruence.
  - intros E. rewrite E in Hget. apply dict_get_in in Hget.
    change target with (fst (target, matched_lines output)).
    apply in_map. exact Hget.
Qed.

Lemma strong_iff (scan_results : dict str) (target output : str) :
  wf_dict scan_results -> In (target, output) scan_results ->
  (In target (strong_of scan_results) <-> any_weak output = false).
Proof.
  intros Hwf Hin. rewrite in_strong_of. split.
  - intros [o [Ho E]]. rewrite (item_unique _ _ _ _ Hwf Hin Ho). exact E.
  - intros E. exists output. auto.
Qed.

Lemma dict_get_set_same {V} (d : dict V) (k : str) (v : V) :
  dict_get (dict_set d k v) k = Some v.
Proof.
  induction d as [|[k' v'] d IH]; simpl.
  - rewrite str_eqb_refl. reflexivity.
  - destruct (str_eqb k' k) eqn:E; simpl; rewrite E; auto.
Qed.

Lemma filter_none {A} (p : A -> bool) (l : list A) :
  existsb p l = false -> filter p l = [].
Proof.
  induction l as [|x l IH]; simpl; [reflexivity|].
  intros E. apply orb_false_iff in E as [-> E]. auto.
Qed.

(** C1.  For a target of the input with raw output [output]: the target
    is in the weak dictionary exactly when some line of the output holds
    a catalog marker as a substring; then its entry is the list of the
    lines that hold a marker, in their order, and it is not a strong
    target; otherwise it is a strong target and has no entry. *)
Theorem verdict_weak_iff_marked_line
    (scan_results : dict str) (target output : str) :
  wf_dict scan_results ->
  In (target, output) scan_results ->
  let strong_targets := fst (classify scan_results) in
  let weak_targets := snd (classify scan_results) in
  let marked line :=
    exists weak, In weak WEAK_TLS_INDICATORS /\ contains line weak = true in
  (forall line, any_weak line = true <-> marked line)
  /\ (In target (keys weak_targets) <->
      exists line, In line (split output newline) /\ marked line)
  /\ (In target (keys weak_targets) ->
      dict_get weak_targets target
      = Some (filter any_weak (split output newline))
      /\ ~ In target strong_targets)
  /\ (~ In target (keys weak_targets) ->
      In target strong_targets
      /\ dict_get weak_targets target = None
      /\ filter any_weak (split output newline) = []).
Proof.
  intros Hwf Hin. rewrite (classify_closed _ Hwf). cbv zeta. simpl fst. simpl snd.
  pose proof (weak_key_iff _ _ _ Hwf Hin) as Hweak.
  pose proof (strong_iff _ _ _ Hwf Hin) as Hstrong.
  pose proof (weak_of_get _ _ _ Hwf Hin) as Hget.
  assert (Hlines : any_weak output = true <->
                   exists line, In line (split output newline)
                     /\ exists weak, In weak WEAK_TLS_INDICATORS
                                     /\ contains line weak = true).
  { rewrite any_weak_split, existsb_exists.
    split; intros [line [Hl H]]; exists line; split; auto;
      apply any_weak_iff; exact H. }
  split; [exact any_weak_iff|]. split; [rewrite Hweak; exact Hlines|]. split.
  - intros H. apply Hweak in H. rewrite H in Hget. split; [exact Hget|].
    rewrite Hstrong. congruence.
  - intros H. assert (E : any_weak output = false).
    { destruct (any_weak output); [|reflexivity]. exfalso. apply H, Hweak.
      reflexivity. }
    rewrite E in Hget. split; [apply Hstrong; exact E|]. split; [exact Hget|].
    rewrite any_weak_split in E. apply filter_none. exact E.
Qed.

Lemma verdict_weak_iff_marked_line_witness :
  let r := [(lit "a", lit "RC4 x" ++ [newline] ++ lit "ok"); (lit "b", lit "fine")] in
  wf_dict r /\ In (lit "a", lit "RC4 x" ++ [newline] ++ lit "ok") r
  /\ dict_get (snd (classify r)) (lit "a") = Some [lit "RC4 x"].
Proof.
  assert (Hwf : wf_dict [(lit "a", lit "RC4 x" ++ [newline] ++ lit "ok");
                         (lit "b", lit "fine")]).
  { repeat constructor; simpl; intuition discriminate. }
  assert (Hin : In (lit "a", lit "RC4 x" ++ [newline] ++ lit "ok")
                   [(lit "a", lit "RC4 x" ++ [newline] ++ lit "ok");
                    (lit "b", lit "fine")]) by (left; reflexivity).
  split; [exact Hwf|]. split; [exact Hin|].
  destruct (verdict_weak_iff_marked_line _ _ _ Hwf Hin) as [_ [_ [H _]]].
  apply H. left. reflexivity.
Defined.

(** C5.  The strong list and the weak dictionary split the targets:
    their sizes add up to the number of targets, every target is in
    exactly one of them, and these are the numbers the cover page of the
    report shows. *)
Theorem strong_plus_weak_is_total
    (w : World) (scan_results : dict str) (output_pdf scan_date : str) :
  wf_dict scan_results ->
  let strong_targets := fst (classify scan_results) in
  let weak_targets := snd (classify scan_results) in
  (length strong_targets + length weak_targets = length scan_results)%nat
  /\ (forall target, In target (keys scan_results) ->
        (In target strong_targets /\ ~ In target (keys weak_targets))
        \/ (~ In target strong_targets /\ In target (keys weak_targets)))
  /\ classify [] = ([], [])
  /\ exists doc high medium,
       create_pdf w scan_results output_pdf scan_date = Ok doc
       /\ In (cover_drawing (load_fonts w) scan_date (length scan_results)
                (length strong_targets) (length weak_targets) high medium)
             (pages doc).
Proof.
  intros Hwf. cbv zeta. split; [|split; [|split]].
  - rewrite (classify_closed _ Hwf). apply length_strong_weak.
  - rewrite (classify_closed _ Hwf). simpl fst. simpl snd.
    intros target Ht. unfold keys in Ht. apply in_map_iff in Ht as [[t o] [E Hin]].
    simpl in E. subst t.
    rewrite (weak_key_iff _ _ _ Hwf Hin), (strong_iff _ _ _ Hwf Hin).
    destruct (any_weak o); [right | left]; split; congruence.
  - reflexivity.
  - rewrite create_pdf_total. cbv zeta. eexists. eexists. eexists.
    split; [reflexivity|]. simpl pages. apply in_or_app. right. left. reflexivity.
Qed.

Lemma strong_plus_weak_is_total_witness :
  let r := [(lit "a", lit "RC4"); (lit "b", lit "fine"); (lit "c", lit "CBC")] in
  wf_dict r
  /\ (length (fst (classify r)) + length (snd (classify r)) = 3)%nat.
Proof.
  assert (Hwf : wf_dict [(lit "a", lit "RC4"); (lit "b", lit "fine");
                         (lit "c", lit "CBC")]).
  { repeat constructor; simpl; intuition discriminate. }
  split; [exact Hwf|].
  exact (proj1 (strong_plus_weak_is_total
                  {| now := []; path_exists := fun _ => false;
                     read_text := fun _ => []; image_file := fun _ => [];
                     font_found := fun _ => false; nmap_stdout := fun _ => [] |}
                  _ [] [] Hwf)).
Defined.

(** ** Risk counts *)

Lemma high_member (weak_targets : dict (list str)) (t : str) :
  In t (filter (high_cond weak_targets) (keys weak_targets)) <->
  exists issues,
    dict_get weak_targets t = Some issues
    /\ contains (join_empty issues) (lit "TLS 1.0")
       || contains (join_empty issues) (lit "RC4") = true.
Proof.
  rewrite filter_In. unfold high_cond. split.
  - intros [_ H]. destruct (dict_get weak_targets t) as [issues|];
      [exists issues; auto | discriminate].
  - intros [issues [H E]]. rewrite H. split; [|exact E].
    apply dict_get_in in H. change t with (fst (t, issues)). apply in_map. exact H.
Qed.

Lemma medium_member (weak_targets : dict (list str)) (t : str) :
  In t (filter (medium_cond weak_targets) (keys weak_targets)) <->
  exists issues,
    dict_get weak_targets t = Some issues
    /\ contains (join_empty issues) (lit "CBC") = true.
Proof.
  rewrite filter_In. unfold medium_cond. split.
  - intros [_ H]. destruct (dict_get weak_targets t) as [issues|];
      [exists issues; auto | discriminate].
  - intros [issues [H E]]. rewrite H. split; [|exact E].
    apply dict_get_in in H. change t with (fst (t, issues)). apply in_map. exact H.
Qed.

Lemma marked_line_makes_weak (output line : str) :
  In line (matched_lines output) -> any_weak output = true.
Proof.
  unfold matched_lines. intros H. apply filter_In in H as [H E].
  rewrite any_weak_split. apply existsb_exists. exists line. auto.
Qed.

Lemma rc4_counted_high (scan_results : dict str) (target output : str) :
  wf_dict scan_results ->
  In (target, output) scan_results ->
  (exists line, In line (matched_lines output)
                /\ contains line (lit "RC4") = true) ->
  In target (filter (high_cond (weak_of scan_results))
                    (keys (weak_of scan_results))).
Proof.
  intros Hwf Hin [line [Hl Hc]].
  pose proof (marked_line_makes_weak _ _ Hl) as E.
  apply high_member. exists (matched_lines output). split.
  - rewrite (weak_of_get _ _ _ Hwf Hin), E. reflexivity.
  - rewrite (contains_in_concat _ _ _ Hl Hc). apply orb_true_r.
Qed.

(** C2, as the code has it.  A target one of whose matched lines holds
    RC4 is in the weak dictionary and is counted among the High-Risk
    Findings; and the mapping of 10.0.0.1 to the two lines
    "TLSv1.0 enabled" and "AES256-GCM strong" gives no strong target and
    one weak target whose matched lines are exactly "TLSv1.0 enabled". *)
Theorem rc4_line_is_high_risk :
  (forall (scan_results : dict str) (target output : str),
      wf_dict scan_results ->
      In (target, output) scan_results ->
      (exists line, In line (matched_lines output)
                    /\ contains line (lit "RC4") = true) ->
      In target (keys (snd (classify scan_results)))
      /\ exists high, high_risk (snd (classify scan_results)) = Ok high
                      /\ In target high)
  /\ classify tls10_scenario = ([], [(lit "10.0.0.1", [lit "TLSv1.0 enabled"])]).
Proof.
  split; [|reflexivity].
  intros r target output Hwf Hin Hrc4.
  rewrite (classify_closed _ Hwf). simpl snd.
  destruct Hrc4 as [line [Hl Hc]].
  pose proof (marked_line_makes_weak _ _ Hl) as E.
  split; [apply (weak_key_iff _ _ _ Hwf Hin); exact E|].
  rewrite high_risk_total. eexists. split; [reflexivity|].
  apply (rc4_counted_high _ _ _ Hwf Hin). exists line. auto.
Qed.

Lemma rc4_line_is_high_risk_witness :
  exists high,
    high_risk (snd (classify [(lit "h", lit "TLS_RSA_WITH_RC4_128_SHA")]))
    = Ok high
    /\ In (lit "h") high.
Proof.
  refine (proj2 (proj1 rc4_line_is_high_risk
                   [(lit "h", lit "TLS_RSA_WITH_RC4_128_SHA")]
                   (lit "h") (lit "TLS_RSA_WITH_RC4_128_SHA") _ _ _)).
  - repeat constructor; simpl; intuition discriminate.
  - left; reflexivity.
  - exists (lit "TLS_RSA_WITH_RC4_128_SHA"). split; [left|]; reflexivity.
Defined.

(** C2 as stated fails: a target whose only matched line holds the
    legacy-protocol marker SSLv3 is weak and not counted High-Risk. *)
Lemma legacy_protocol_line_not_high_risk :
  let r := [(lit "10.0.0.9", lit "SSLv3 enabled")] in
  classify r = ([], [(lit "10.0.0.9", [lit "SSLv3 enabled"])])
  /\ contains (lit "SSLv3 enabled") (lit "SSLv3") = true
  /\ In (lit "SSLv3") WEAK_TLS_INDICATORS
  /\ high_risk (snd (classify r)) = Ok [].
Proof. vm_compute. intuition. Qed.

(** The High-Risk condition reads "TLS 1.0" where the catalog and the
    scanner write "TLSv1.0": the count for the scenario of C2 is 0. *)
Example tls10_scenario_high_risk_count :
  high_risk (snd (classify tls10_scenario)) = Ok [].
Proof. reflexivity. Qed.

(** C3, as the code has it.  A weak target is counted among the
    Medium-Risk Findings exactly when the concatenation of its matched
    lines holds CBC, so whenever one matched line holds CBC; the High
    condition plays no part, and a target with RC4 in one matched line
    and CBC in one matched line is counted in both. *)
Theorem medium_risk_iff_cbc
    (scan_results : dict str) (target output : str) :
  wf_dict scan_results ->
  In (target, output) scan_results ->
  any_weak output = true ->
  exists high medium,
    high_risk (snd (classify scan_results)) = Ok high
    /\ medium_risk (snd (classify scan_results)) = Ok medium
    /\ (In target medium <->
        contains (join_empty (matched_lines output)) (lit "CBC") = true)
    /\ ((exists line, In line (matched_lines output)
                      /\ contains line (lit "CBC") = true) ->
        In target medium)
    /\ ((exists line, In line (matched_lines output)
                      /\ contains line (lit "CBC") = true) ->
        (exists line, In line (matched_lines output)
                      /\ contains line (lit "RC4") = true) ->
        In target high /\ In target medium).
Proof.
  intros Hwf Hin E. rewrite (classify_closed _ Hwf). simpl snd.
  rewrite high_risk_total, medium_risk_total. eexists. eexists.
  split; [reflexivity|]. split; [reflexivity|].
  assert (Hiff : In target
                   (filter (medium_cond (weak_of scan_results))
                           (keys (weak_of scan_results))) <->
                 contains (join_empty (matched_lines output)) (lit "CBC") = true).
  { rewrite medium_member, (weak_of_get _ _ _ Hwf Hin), E. split.
    - intros [issues [H Hc]]. injection H as <-. exact Hc.
    - intros Hc. exists (matched_lines output). auto. }
  assert (Hline : (exists line, In line (matched_lines output)
                                /\ contains line (lit "CBC") = true) ->
                  In target (filter (medium_cond (weak_of scan_results))
                                    (keys (weak_of scan_results)))).
  { intros [line [Hl Hc]]. apply Hiff. eapply contains_in_concat; eauto. }
  split; [exact Hiff|]. split; [exact Hline|].
  intros Hcbc Hrc4. split; [|exact (Hline Hcbc)].
  apply (rc4_counted_high _ _ _ Hwf Hin). exact Hrc4.
Qed.

Lemma medium_risk_iff_cbc_witness :
  exists medium,
    medium_risk (snd (classify [(lit "h", lit "AES128-CBC-SHA")])) = Ok medium
    /\ In (lit "h") medium.
Proof.
  destruct (medium_risk_iff_cbc [(lit "h", lit "AES128-CBC-SHA")]
              (lit "h") (lit "AES128-CBC-SHA")) as [high [medium [_ [H [Hiff _]]]]].
  - repeat constructor; simpl; intuition discriminate.
  - left; reflexivity.
  - reflexivity.
  - exists medium. split; [exact H|]. apply Hiff. reflexivity.
Defined.

(** C3 as stated fails: a target whose matched line holds both RC4 and
    CBC is counted among the High-Risk and among the Medium-Risk
    Findings. *)
Lemma counted_high_and_medium :
  let r := [(lit "10.0.0.7", lit "TLS_RSA_WITH_RC4_128_SHA, DES-CBC3-SHA")] in
  exists issues,
    snd (classify r) = [(lit "10.0.0.7", issues)]
    /\ existsb (fun line => contains line (lit "RC4")) issues = true
    /\ high_risk (snd (classify r)) = Ok [lit "10.0.0.7"]
    /\ medium_risk (snd (classify r)) = Ok [lit "10.0.0.7"].
Proof. eexists. vm_compute. intuition. Qed.

(** ** Scans without output *)

Lemma not_weak_not_counted (scan_results : dict str) (target output : str) :
  wf_dict scan_results -> In (target, output) scan_results ->
  any_weak output = false ->
  forall cond : str -> bool,
    ~ In target (filter cond (keys (weak_of scan_results))).
Proof.
  intros Hwf Hin E cond H. apply filter_In in H as [H _].
  apply (weak_key_iff _ _ _ Hwf Hin) in H. congruence.
Qed.

(** C4, as the code has it.  A scan without standard output is recorded
    as the text "No output or scan failed."; a target whose output is
    that text or is empty is a strong target: it has no entry in the
    weak dictionary, no matched line, and is counted neither High-Risk
    nor Medium-Risk. *)
Theorem no_output_is_strong
    (scan_results : dict str) (target output : str) :
  wf_dict scan_results ->
  In (target, output) scan_results ->
  output = NO_OUTPUT \/ output = [] ->
  In target (fst (classify scan_results))
  /\ dict_get (snd (classify scan_results)) target = None
  /\ matched_lines output = []
  /\ (exists high medium,
        high_risk (snd (classify scan_results)) = Ok high
        /\ medium_risk (snd (classify scan_results)) = Ok medium
        /\ ~ In target high /\ ~ In target medium)
  /\ (forall (w : World) (earlier : dict str),
        nmap_stdout w target = [] ->
        dict_get (scan_step w earlier target) target = Some NO_OUTPUT).
Proof.
  intros Hwf Hin Hout.
  assert (E : any_weak output = false) by (destruct Hout; subst; reflexivity).
  rewrite (classify_closed _ Hwf). simpl fst. simpl snd.
  split; [apply (strong_iff _ _ _ Hwf Hin); exact E|].
  split; [rewrite (weak_of_get _ _ _ Hwf Hin), E; reflexivity|].
  split; [apply filter_none; rewrite <- any_weak_split; exact E|].
  split.
  - rewrite high_risk_total, medium_risk_total. eexists. eexists.
    split; [reflexivity|]. split; [reflexivity|].
    split; eapply not_weak_not_counted; eauto.
  - intros w earlier Hw. unfold scan_step. rewrite Hw. apply dict_get_set_same.
Qed.

Lemma no_output_is_strong_witness :
  In (lit "10.0.0.3") (fst (classify [(lit "10.0.0.3", NO_OUTPUT)])).
Proof.
  refine (proj1 (no_output_is_strong [(lit "10.0.0.3", NO_OUTPUT)]
                   (lit "10.0.0.3") NO_OUTPUT _ _ _)).
  - repeat constructor; simpl; intuition discriminate.
  - left; reflexivity.
  - left; reflexivity.
Defined.

(** C4 as stated fails: neither the failure text nor the empty output
    puts its target in the weak dictionary. *)
Lemma no_output_not_weak :
  classify [(lit "10.0.0.3", NO_OUTPUT); (lit "10.0.0.4", [])]
  = ([lit "10.0.0.3"; lit "10.0.0.4"], []).
Proof. reflexivity. Qed.

(** ** Pages *)

Lemma line_colour (f : fonts) (y : Z) (line : str) :
  (any_weak line = true /\ line_op f y line = Text (70, y) line (body_font f) Red)
  \/ (any_weak line = false
      /\ line_op f y line = Text (70, y) line (body_font f) Black).
Proof. unfold line_op. destruct (any_weak line); auto. Qed.

(** C6, as the code has it.  For the empty mapping [create_pdf] does
    not raise: it saves the cover page with all five numbers 0 and the
    summary page, and no Scan Results page; the resized cover image comes
    first when its file exists, which makes 3 pages, and 2 otherwise. *)
Theorem empty_report (w : World) (output_pdf scan_date : str) :
  create_pdf w [] output_pdf scan_date
  = Ok {| saved_as := output_pdf;
          pages := cover_image w
                   ++ [cover_drawing (load_fonts w) scan_date 0 0 0 0 0;
                       summary_page (load_fonts w) [] []] |}
  /\ length (cover_image w
             ++ [cover_drawing (load_fonts w) scan_date 0 0 0 0 0;
                 summary_page (load_fonts w) [] []])
     = (if path_exists w COVER_IMAGE_PATH then 3 else 2)%nat.
Proof.
  split.
  - rewrite create_pdf_total. reflexivity.
  - unfold cover_image. destruct (path_exists w COVER_IMAGE_PATH); reflexivity.
Qed.

(** C6 as stated fails: with the cover image file present the report of
    the empty mapping has 3 pages. *)
Lemma empty_report_with_cover_image :
  let w := {| now := lit "2025-03-01 10:00:00";
              path_exists := fun _ => true;
              read_text := fun _ => [];
              image_file := fun _ => [];
              font_found := fun _ => true;
              nmap_stdout := fun _ => [] |} in
  exists doc,
    create_pdf w [] (lit "report.pdf") (now w) = Ok doc
    /\ length (pages doc) = 3%nat
    /\ hd_error (pages doc) = Some (Resized (1000, 1454) []).
Proof. eexists. split; [reflexivity|]. split; reflexivity. Qed.

Lemma in_firstn {A} (n : nat) (l : list A) (x : A) :
  In x (firstn n l) -> In x l.
Proof.
  revert l; induction n as [|n IH]; intros [|y l]; simpl; try tauto.
  intros [H | H]; auto.
Qed.

Lemma length_place (f : fonts) (lines : list str) :
  forall y, length (place f y lines) = length lines.
Proof. induction lines as [|l ls IH]; intros y; simpl; auto. Qed.

Lemma place_black (f : fonts) (lines : list str) :
  Forall (fun line => any_weak line = false) lines ->
  forall y,
    Forall (fun op => exists y' line, op = Text (70, y') line (body_font f) Black)
           (place f y lines).
Proof.
  induction 1 as [|l ls Hl _ IH]; intros y; simpl; constructor; [|apply IH].
  exists y, l. unfold line_op. rewrite Hl. reflexivity.
Qed.

(** C7.  The saved pages are the cover image when there is one, the
    cover page, the summary page, and then one Scan Results page for each
    item of the mapping, in the order of the mapping.  The page of a
    target is headed by its name, and the call that draws line [k] of
    its output is red when the line holds a catalog marker and black
    when it holds none. *)
Theorem one_detail_page_per_target
    (w : World) (scan_results : dict str) (output_pdf scan_date : str) :
  let f := load_fonts w in
  let marked line :=
    exists weak, In weak WEAK_TLS_INDICATORS /\ contains line weak = true in
  (exists cover,
     create_pdf w scan_results output_pdf scan_date
     = Ok {| saved_as := output_pdf;
             pages := cover_image w
                      ++ [cover; summary_page f (fst (classify scan_results))
                                   (snd (classify scan_results))]
                      ++ map (detail_page f) scan_results |})
  /\ (forall target output,
        detail_page f (target, output)
        = Drawn (1000, 1400) White
            (Text (100, 80) (lit "Scan Result for: " ++ target)
                  (header_font f) Black
             :: Rectangle (50, 200) (950, 1350) None (Some Black) 3
             :: draw_lines f 220 (split output newline)))
  /\ (forall output k op,
        nth_error (draw_lines f 220 (split output newline)) k = Some op ->
        exists line,
          nth_error (split output newline) k = Some line
          /\ ((marked line
               /\ op = Text (70, 220 + 25 * Z.of_nat k) line (body_font f) Red)
              \/ (~ marked line
                  /\ op = Text (70, 220 + 25 * Z.of_nat k) line
                            (body_font f) Black))).
Proof.
  cbv zeta. split; [|split].
  - rewrite create_pdf_total. cbv zeta. eexists. reflexivity.
  - reflexivity.
  - intros output k op H. rewrite draw_lines_nth in H.
    destruct (220 + 25 * Z.of_nat k >? 1300); [discriminate|].
    destruct (nth_error (split output newline) k) as [line|]; [|discriminate].
    unfold option_map in H.
    assert (Hop : op = line_op (load_fonts w) (220 + 25 * Z.of_nat k) line)
      by congruence.
    subst op. clear H. exists line. split; [reflexivity|].
    destruct (line_colour (load_fonts w) (220 + 25 * Z.of_nat k) line)
      as [[E ->] | [E ->]].
    + left. split; [apply any_weak_iff; exact E | reflexivity].
    + right. split; [|reflexivity]. rewrite <- any_weak_iff. congruence.
Qed.

Lemma one_detail_page_per_target_witness :
  exists line,
    nth_error (split (lit "ok" ++ [newline] ++ lit "RC4-MD5") newline) 1
    = Some line
    /\ Text (70, 245) (lit "RC4-MD5") DefaultFont Red
       = Text (70, 220 + 25 * Z.of_nat 1) line DefaultFont Red.
Proof.
  destruct (proj2 (proj2 (one_detail_page_per_target offline [] [] []))
              (lit "ok" ++ [newline] ++ lit "RC4-MD5") 1%nat
              (Text (70, 245) (lit "RC4-MD5") DefaultFont Red) eq_refl)
    as [line [Hl [[_ H] | [_ H]]]].
  - exists line. split; [exact Hl | exact H].
  - discriminate H.
Defined.

(** C8.  [create_pdf] never raises and saves one Scan Results page for
    each target however long its output is.  In the loop of such a page
    started at cursor [y], line [k] is drawn exactly when its cursor
    [y + 25 k] is at most 1300; later lines are dropped.  An output of
    200 lines without marker is drawn as its first 44 lines, in black. *)
Theorem detail_page_truncates
    (w : World) (scan_results : dict str) (output_pdf scan_date : str) :
  (exists doc,
     create_pdf w scan_results output_pdf scan_date = Ok doc
     /\ length (pages doc)
        = (length (cover_image w) + 2 + length scan_results)%nat)
  /\ (forall f y lines k,
        nth_error (draw_lines f y lines) k
        = if y + 25 * Z.of_nat k >? 1300 then None
          else option_map (line_op f (y + 25 * Z.of_nat k)) (nth_error lines k))
  /\ (forall f output,
        length (split output newline) = 200%nat ->
        any_weak output = false ->
        draw_lines f 220 (split output newline)
        = place f 220 (firstn 44 (split output newline))
        /\ length (draw_lines f 220 (split output newline)) = 44%nat
        /\ Forall (fun op => exists y line,
                     op = Text (70, y) line (body_font f) Black)
                  (draw_lines f 220 (split output newline))).
Proof.
  split; [|split].
  - rewrite create_pdf_total. cbv zeta. eexists. split; [reflexivity|].
    simpl pages. rewrite length_app. simpl length. rewrite length_map. lia.
  - intros f y lines k. apply draw_lines_nth.
  - intros f output Hlen Hweak. rewrite draw_lines_first_44.
    split; [reflexivity|]. split.
    + rewrite length_place, length_firstn, Hlen. reflexivity.
    + apply place_black.
      rewrite any_weak_split in Hweak. apply Forall_forall. intros line Hl.
      apply in_firstn in Hl.
      destruct (any_weak line) eqn:E; [|reflexivity].
      assert (existsb any_weak (split output newline) = true)
        by (apply existsb_exists; eauto).
      congruence.
Qed.

Lemma detail_page_truncates_witness :
  length (draw_lines (load_fonts offline) 220 (split two_hundred_lines newline))
  = 44%nat.
Proof.
  refine (proj1 (proj2 (proj2 (proj2 (detail_page_truncates offline [] [] []))
                         (load_fonts offline) two_hundred_lines _ _))).
  - vm_compute. reflexivity.
  - vm_compute. reflexivity.
Defined.

(** C9, as the code has it.  Take two runs of [create_pdf] with the
    same timestamp that find the same cover image and fonts, on mappings
    with the same classification and the same number of targets.  The
    pages before the Scan Results pages (the cover image if any, the
    cover page, the summary page) are the same in both.  The Scan
    Results pages are drawn from the raw outputs, so the two documents
    are equal exactly when these pages are equal, as they are when the
    two mappings are the same.  The clock, the scanner and the other
    files play no part. *)
Theorem pages_fixed_by_results_and_raw_output
    (w1 w2 : World) (r1 r2 : dict str) (output_pdf scan_date : str) :
  cover_image w1 = cover_image w2 ->
  load_fonts w1 = load_fonts w2 ->
  classify r1 = classify r2 ->
  length r1 = length r2 ->
  exists front,
    length front = (length (cover_image w1) + 2)%nat
    /\ create_pdf w1 r1 output_pdf scan_date
       = Ok {| saved_as := output_pdf;
               pages := front ++ map (detail_page (load_fonts w1)) r1 |}
    /\ create_pdf w2 r2 output_pdf scan_date
       = Ok {| saved_as := output_pdf;
               pages := front ++ map (detail_page (load_fonts w1)) r2 |}
    /\ (create_pdf w1 r1 output_pdf scan_date
        = create_pdf w2 r2 output_pdf scan_date
        <-> map (detail_page (load_fonts w1)) r1
            = map (detail_page (load_fonts w1)) r2)
    /\ (r1 = r2 ->
        create_pdf w1 r1 output_pdf scan_date
        = create_pdf w2 r2 output_pdf scan_date).
Proof.
  intros Hc Hf Hcl Hlen. rewrite !create_pdf_total. cbv zeta.
  rewrite <- Hc, <- Hf, <- Hcl, <- Hlen. rewrite !app_assoc.
  eexists. split; [|split; [reflexivity|split; [reflexivity|split]]].
  - rewrite length_app. reflexivity.
  - split.
    + intros H. injection H as H. apply app_inv_head in H. exact H.
    + intros H. rewrite H. reflexivity.
  - intros ->. reflexivity.
Qed.

Lemma pages_fixed_by_results_and_raw_output_witness :
  create_pdf offline tls10_scenario (lit "report.pdf") (lit "2025-03-01 10:00:00")
  = create_pdf later tls10_scenario (lit "report.pdf") (lit "2025-03-01 10:00:00").
Proof.
  destruct (pages_fixed_by_results_and_raw_output offline later
              tls10_scenario tls10_scenario
              (lit "report.pdf") (lit "2025-03-01 10:00:00")
              eq_refl eq_refl eq_refl eq_refl) as [front [_ [_ [_ [_ H]]]]].
  exact (H eq_refl).
Defined.

(** C9 as stated fails.  Two mappings with the same classification and
    the same numbers give different Scan Results pages when the raw
    outputs differ in a line without marker; and one mapping gives
    different pages in two runs that find different fonts and cover
    image. *)
Lemma same_classification_different_pages :
  let r1 := [(lit "a", lit "RC4" ++ [newline] ++ lit "foo")] in
  let r2 := [(lit "a", lit "RC4" ++ [newline] ++ lit "bar")] in
  let date := lit "2025-03-01 10:00:00" in
  let equipped :=
    {| now := date;
       path_exists := fun _ => true;
       read_text := fun _ => [];
       image_file := fun _ => [];
       font_found := fun _ => true;
       nmap_stdout := fun _ => [] |} in
  classify r1 = classify r2
  /\ length r1 = length r2
  /\ high_risk (snd (classify r1)) = high_risk (snd (classify r2))
  /\ medium_risk (snd (classify r1)) = medium_risk (snd (classify r2))
  /\ create_pdf offline r1 (lit "report.pdf") date
     <> create_pdf offline r2 (lit "report.pdf") date
  /\ create_pdf offline r1 (lit "report.pdf") date
     <> create_pdf equipped r1 (lit "report.pdf") date.
Proof.
  cbv zeta. repeat split; try reflexivity.
  - intros H. vm_compute in H. discriminate H.
  - intros H. vm_compute in H. discriminate H.
Qed.

(** C10.  A Scan Results page is its heading, its frame, and the first
    44 lines of the output, line [k] at cursor [220 + 25 k]: at most 44
    calls, none for a line after the 44th.  The loop ends, before it
    draws, at the first line whose cursor is above 1300; the 44th line
    is at 1295 and a 45th would be at 1320. *)
Theorem at_most_44_lines (f : fonts) (target output : str) :
  detail_page f (target, output)
  = Drawn (1000, 1400) White
      (Text (100, 80) (lit "Scan Result for: " ++ target) (header_font f) Black
       :: Rectangle (50, 200) (950, 1350) None (Some Black) 3
       :: place f 220 (firstn 44 (split output newline)))
  /\ (length (draw_lines f 220 (split output newline)) <= 44)%nat
  /\ (forall k,
        nth_error (draw_lines f 220 (split output newline)) k
        = if (k <? 44)%nat
          then option_map (line_op f (220 + 25 * Z.of_nat k))
                          (nth_error (split output newline) k)
          else None)
  /\ (forall y line rest,
        draw_lines f y (line :: rest)
        = if y >? 1300 then []
          else line_op f y line :: draw_lines f (y + 25) rest)
  /\ 220 + 25 * 43 = 1295 /\ 220 + 25 * 44 = 1320.
Proof.
  split; [|split; [|split; [|split]]].
  - unfold detail_page. rewrite draw_lines_first_44. reflexivity.
  - rewrite draw_lines_first_44, length_place, length_firstn. lia.
  - intros k. rewrite draw_lines_nth. destruct (Nat.ltb k 44) eqn:Ek.
    + apply Nat.ltb_lt in Ek.
      assert ((220 + 25 * Z.of_nat k >? 1300) = false) as ->
        by (rewrite Z.gtb_ltb; apply Z.ltb_ge; lia).
      reflexivity.
    + apply Nat.ltb_ge in Ek.
      assert ((220 + 25 * Z.of_nat k >? 1300) = true) as ->
        by (apply Z.gtb_lt; lia).
      reflexivity.
  - intros y line rest. apply draw_lines_step.
  - split; reflexivity.
Qed.

(** ** The mapping built by [run_ssl_scan] *)

Lemma keys_dict_set {V} (d : dict V) (k : str) (v : V) (x : str) :
  In x (keys (dict_set d k v)) -> x = k \/ In x (keys d).
Proof.
  induction d as [|[k' v'] d IH]; simpl.
  - intros [H | []]. left. congruence.
  - destruct (str_eqb k' k); simpl; [tauto|].
    intros [H | H]; [tauto|]. apply IH in H. tauto.
Qed.

Lemma dict_set_wf {V} (d : dict V) (k : str) (v : V) :
  wf_dict d -> wf_dict (dict_set d k v).
Proof.
  unfold wf_dict. induction d as [|[k' v'] d IH]; simpl; intros Hwf.
  - constructor; [tauto | constructor].
  - inversion Hwf as [|? ? Hfresh Hrest]; subst.
    destruct (str_eqb k' k) eqn:E; simpl; constructor; auto.
    intros H. apply keys_dict_set in H as [H | H]; [|tauto].
    apply str_eqb_neq in E. congruence.
Qed.

(** Whatever the targets file lists, also a target twice, the mapping
    handed to [create_pdf] is a well-formed dictionary. *)
Lemma scan_results_wf (w : World) (targets : list str) :
  forall earlier, wf_dict earlier ->
                  wf_dict (fold_left (scan_step w) targets earlier).
Proof.
  induction targets as [|t ts IH]; intros earlier Hwf; simpl; [exact Hwf|].
  apply IH. unfold scan_step. apply dict_set_wf. exact Hwf.
Qed.

Example run_ssl_scan_later :
  exists doc,
    run_ssl_scan later (lit "targets.txt") (lit "report.pdf") = Ok (Some doc)
    /\ length (pages doc) = 3%nat
    /\ nth_error (pages doc) 2
       = Some (detail_page (load_fonts later) (lit "10.0.0.1", lit "TLSv1.1 RC4")).
Proof. eexists. split; [reflexivity|]. split; reflexivity. Qed.

(** * Further properties *)

(** ** Stripping *)

Lemma lstrip_nil_iff (s : str) :
  lstrip s = [] <-> forallb isspace s = true.
Proof.
  induction s as [|c s IH]; simpl; [tauto|].
  destruct (isspace c); simpl; [exact IH|]. split; discriminate.
Qed.

Lemma lstrip_head (s : str) (c : char) :
  hd_error (lstrip s) = Some c -> isspace c = false.
Proof.
  induction s as [|a s IH]; simpl; [discriminate|].
  destruct (isspace a) eqn:E; [exact IH|].
  simpl. intros H. injection H as <-. exact E.
Qed.

Lemma lstrip_snoc (s : str) (c : char) :
  isspace c = false -> lstrip (s ++ [c]) = lstrip s ++ [c].
Proof.
  intros Hc. induction s as [|a s IH]; simpl.
  - rewrite Hc. reflexivity.
  - destruct (isspace a); [exact IH | reflexivity].
Qed.

Lemma in_lstrip (s : str) (c : char) : In c (lstrip s) -> In c s.
Proof.
  induction s as [|a s IH]; simpl; [tauto|].
  destruct (isspace a); simpl; tauto.
Qed.

Lemma in_strip (s : str) (c : char) : In c (strip s) -> In c s.
Proof.
  unfold strip. intros H. apply in_rev in H. apply in_lstrip in H.
  apply in_rev in H. apply in_lstrip. exact H.
Qed.

(** A stripped string is empty or starts with the first character of
    the input that is no whitespace. *)
Lemma strip_shape (s : str) :
  (lstrip s = [] /\ strip s = [])
  \/ exists c rest, lstrip s = c :: rest /\ isspace c = false
                    /\ strip s = c :: rev (lstrip (rev rest)).
Proof.
  unfold strip. destruct (lstrip s) as [|c rest] eqn:E; [left; auto|].
  right. exists c, rest.
  assert (Hc : isspace c = false) by (apply (lstrip_head s); rewrite E; reflexivity).
  split; [reflexivity|]. split; [exact Hc|].
  simpl rev. rewrite (lstrip_snoc _ _ Hc), rev_app_distr. reflexivity.
Qed.

Lemma strip_nil_iff (s : str) : strip s = [] <-> forallb isspace s = true.
Proof.
  rewrite <- lstrip_nil_iff.
  destruct (strip_shape s) as [[H1 H2] | [c [rest [H1 [_ H2]]]]];
    rewrite H1, H2; split; auto; discriminate.
Qed.

Lemma strip_first (s : str) (c : char) :
  hd_error (strip s) = Some c -> isspace c = false.
Proof.
  destruct (strip_shape s) as [[_ H] | [a [rest [_ [Ha H]]]]]; rewrite H; simpl.
  - discriminate.
  - intros E. injection E as <-. exact Ha.
Qed.

Lemma strip_last (s : str) (c : char) :
  hd_error (rev (strip s)) = Some c -> isspace c = false.
Proof.
  unfold strip. rewrite rev_involutive. apply lstrip_head.
Qed.

Lemma split_pieces_no_sep (sep : char) (s piece : str) :
  In piece (split s sep) -> ~ In sep piece.
Proof.
  revert piece. induction s as [|c s IH]; simpl; intros piece.
  - intros [<- | []]. tauto.
  - destruct (N.eqb c sep) eqn:E.
    + intros [<- | H]; [tauto | apply IH; exact H].
    + pose proof (split_not_nil s sep) as Hne.
      destruct (split s sep) as [|l ls]; [congruence|].
      apply N.eqb_neq in E.
      intros [<- | H].
      * simpl. intros [H | H]; [congruence|]. apply (IH l); [left; reflexivity | exact H].
      * apply IH. right. exact H.
Qed.

(** ** [run_ssl_scan] *)

Lemma run_ssl_scan_unfold (w : World) (targets_file output_pdf : str) :
  run_ssl_scan w targets_file output_pdf
  = if negb (path_exists w targets_file) then Ok None
    else match read_targets (read_text w targets_file) with
         | [] => Ok None
         | _ :: _ =>
             doc <- create_pdf w
                      (fold_left (scan_step w)
                                 (read_targets (read_text w targets_file)) [])
                      output_pdf (now w) ;;
             Ok (Some doc)
         end.
Proof. reflexivity. Qed.

Lemma read_targets_nil_iff (text : str) :
  read_targets text = [] <->
  forall line, In line (split text newline) -> forallb isspace line = true.
Proof.
  unfold read_targets. induction (split text newline) as [|l ls IH]; simpl.
  - tauto.
  - destruct (str_eqb (strip l) []) eqn:E; simpl.
    + apply str_eqb_eq in E. apply strip_nil_iff in E. rewrite IH. split.
      * intros H line [<- | Hl]; auto.
      * intros H line Hl. apply H. right. exact Hl.
    + apply str_eqb_neq in E. split; [discriminate|].
      intros H. exfalso. apply E. apply strip_nil_iff. apply H. left. reflexivity.
Qed.

(** X1.  [run_ssl_scan] writes a report only past its two guards: the
    targets file exists and one of its lines is not blank (not empty and
    not whitespace only).  The report is then saved at the path given,
    and is what [create_pdf] makes of the scan of these targets with the
    clock's reading. *)
Theorem report_only_if_target
    (w : World) (targets_file output_pdf : str) (doc : document) :
  run_ssl_scan w targets_file output_pdf = Ok (Some doc) ->
  path_exists w targets_file = true
  /\ (exists line, In line (split (read_text w targets_file) newline)
                   /\ forallb isspace line = false)
  /\ saved_as doc = output_pdf
  /\ create_pdf w
       (fold_left (scan_step w) (read_targets (read_text w targets_file)) [])
       output_pdf (now w)
     = Ok doc.
Proof.
  rewrite run_ssl_scan_unfold.
  destruct (path_exists w targets_file); simpl negb; cbv iota; [|discriminate].
  destruct (read_targets (read_text w targets_file)) as [|t ts] eqn:E;
    [discriminate|].
  intros H. split; [reflexivity|].
  assert (Hline : exists line,
             In line (split (read_text w targets_file) newline)
             /\ forallb isspace line = false).
  { assert (Ht : In t (read_targets (read_text w targets_file)))
      by (rewrite E; left; reflexivity).
    unfold read_targets in Ht. apply filter_In in Ht as [Ht Hne].
    apply in_map_iff in Ht as [line [Hs Hl]]. exists line. split; [exact Hl|].
    destruct (forallb isspace line) eqn:Hb; [|reflexivity].
    apply strip_nil_iff in Hb. rewrite Hb in Hs. subst t. discriminate Hne. }
  split; [exact Hline|].
  rewrite create_pdf_total in *. cbv zeta in *. simpl bind in H.
  injection H as <-. split; reflexivity.
Qed.

Lemma report_only_if_target_witness :
  path_exists later (lit "targets.txt") = true.
Proof.
  refine (proj1 (report_only_if_target later (lit "targets.txt")
                   (lit "report.pdf") _ _)).
  vm_compute. reflexivity.
Defined.

(** X2.  The targets scanned are the stripped lines of the file that
    are not empty: none is empty, none starts or ends with whitespace,
    none holds a newline. *)
Theorem targets_are_stripped_lines (text t : str) :
  (In t (read_targets text) <->
   t <> [] /\ exists line, In line (split text newline) /\ t = strip line)
  /\ (In t (read_targets text) ->
      (forall c, hd_error t = Some c -> isspace c = false)
      /\ (forall c, hd_error (rev t) = Some c -> isspace c = false)
      /\ ~ In newline t).
Proof.
  assert (Hiff : In t (read_targets text) <->
                 t <> [] /\ exists line, In line (split text newline)
                                         /\ t = strip line).
  { unfold read_targets. rewrite filter_In, in_map_iff, negb_true_iff, str_eqb_neq.
    split.
    - intros [[line [E Hl]] Hne]. split; [exact Hne|]. exists line. auto.
    - intros [Hne [line [Hl E]]]. split; [exists line; auto | exact Hne]. }
  split; [exact Hiff|].
  intros H. apply Hiff in H as [_ [line [Hl ->]]]. split; [|split].
  - apply strip_first.
  - apply strip_last.
  - intros Hin. apply in_strip in Hin.
    exact (split_pieces_no_sep newline text line Hl Hin).
Qed.

Lemma targets_are_stripped_lines_witness : isspace 49%N = false.
Proof.
  refine (proj1 (proj2 (targets_are_stripped_lines
                          (lit "  10.0.0.1 " ++ [newline] ++ lit "  ")
                          (lit "10.0.0.1")) _) 49%N _).
  - vm_compute. left. reflexivity.
  - reflexivity.
Defined.

Lemma dict_get_set_other {V} (d : dict V) (k k' : str) (v : V) :
  k' <> k -> dict_get (dict_set d k v) k' = dict_get d k'.
Proof.
  intros Hne. induction d as [|[a b] d IH]; simpl.
  - destruct (str_eqb k k') eqn:E; [|reflexivity].
    apply str_eqb_eq in E. congruence.
  - destruct (str_eqb a k) eqn:E; simpl.
    + apply str_eqb_eq in E. subst a.
      destruct (str_eqb k k') eqn:E'; [|reflexivity].
      apply str_eqb_eq in E'. congruence.
    + rewrite IH. reflexivity.
Qed.

Lemma keys_dict_set_iff {V} (d : dict V) (k : str) (v : V) (x : str) :
  In x (keys (dict_set d k v)) <-> x = k \/ In x (keys d).
Proof.
  split; [apply keys_dict_set|].
  induction d as [|[a b] d IH]; simpl.
  - intros [-> | []]. auto.
  - destruct (str_eqb a k) eqn:E; simpl.
    + apply str_eqb_eq in E. subst a. intros [-> | [H | H]]; auto.
    + intros [-> | [H | H]]; auto.
Qed.

Lemma recorded_output_not_empty (w : World) (target : str) :
  recorded_output w target <> [].
Proof.
  unfold recorded_output. destruct (nmap_stdout w target); discriminate.
Qed.

Lemma scan_loop (w : World) (targets : list str) :
  forall earlier,
    let r := fold_left (scan_step w) targets earlier in
    (forall t, In t (keys r) <-> In t (keys earlier) \/ In t targets)
    /\ (forall t, In t targets -> dict_get r t = Some (recorded_output w t))
    /\ (forall t, ~ In t targets -> dict_get r t = dict_get earlier t).
Proof.
  induction targets as [|a ts IH]; intros earlier; cbv zeta.
  - simpl. repeat split; tauto.
  - simpl fold_left.
    destruct (IH (scan_step w earlier a)) as [Hkeys [Hin Hout]].
    unfold scan_step in *. fold (recorded_output w a) in *. split; [|split].
    + intros t. rewrite Hkeys, keys_dict_set_iff. simpl.
      split; [intros [[-> | H] | H] | intros [H | [<- | H]]]; auto.
    + intros t Ht.
      destruct (in_dec str_eq_dec t ts) as [Hts | Hts]; [apply Hin; exact Hts|].
      rewrite (Hout t Hts). destruct Ht as [<- | Ht]; [|tauto].
      apply dict_get_set_same.
    + intros t Ht. simpl in Ht. rewrite Hout by tauto.
      apply dict_get_set_other. intros ->. tauto.
Qed.

Lemma scan_distinct (w : World) (targets : list str) :
  forall earlier,
    NoDup targets ->
    (forall t, In t targets -> ~ In t (keys earlier)) ->
    fold_left (scan_step w) targets earlier
    = earlier ++ map (fun t => (t, recorded_output w t)) targets.
Proof.
  induction targets as [|a ts IH]; intros earlier Hnd Hfresh; simpl.
  - rewrite app_nil_r. reflexivity.
  - inversion Hnd as [|? ? Ha Hts]; subst.
    unfold scan_step at 2. fold (recorded_output w a).
    rewrite dict_set_fresh by (apply Hfresh; left; reflexivity).
    rewrite IH; [rewrite <- app_assoc; reflexivity | exact Hts |].
    intros t Ht. unfold keys. rewrite map_app, in_app_iff. simpl.
    intros [H | [<- | []]]; [|tauto].
    apply (Hfresh t); [right; exact Ht | exact H].
Qed.

(** X3.  The mapping [run_ssl_scan] builds from a list of targets is a
    well-formed dictionary whose keys are the targets; looking a target
    up gives the scanner's output, or the failure text when that output
    is empty, so no recorded output is empty; targets listed once each
    keep their order. *)
Theorem scan_results_of_targets (w : World) (targets : list str) :
  let r := fold_left (scan_step w) targets [] in
  wf_dict r
  /\ (forall t, In t (keys r) <-> In t targets)
  /\ (forall t, In t targets -> dict_get r t = Some (recorded_output w t))
  /\ (forall t output, In (t, output) r -> output <> [])
  /\ (forall t, nmap_stdout w t = [] -> In t targets ->
                dict_get r t = Some NO_OUTPUT)
  /\ (NoDup targets ->
      r = map (fun t => (t, recorded_output w t)) targets).
Proof.
  cbv zeta. destruct (scan_loop w targets []) as [Hkeys [Hin _]].
  assert (Hwf : wf_dict (fold_left (scan_step w) targets []))
    by (apply scan_results_wf; constructor).
  split; [exact Hwf|]. split; [|split; [exact Hin|split; [|split]]].
  - intros t. rewrite Hkeys. simpl. tauto.
  - intros t output H. pose proof (dict_get_item _ _ _ Hwf H) as Hget.
    assert (Ht : In t targets).
    { assert (Hk : In t (keys (fold_left (scan_step w) targets [])))
        by (change t with (fst (t, output)); apply in_map; exact H).
      apply Hkeys in Hk. simpl in Hk. tauto. }
    rewrite (Hin t Ht) in Hget. injection Hget as <-.
    apply recorded_output_not_empty.
  - intros t Hout Ht. rewrite (Hin t Ht). unfold recorded_output.
    rewrite Hout. reflexivity.
  - intros Hnd. rewrite scan_distinct; auto.
Qed.

Lemma scan_results_of_targets_witness :
  fold_left (scan_step later) [lit "10.0.0.1"; lit "10.0.0.2"] []
  = [(lit "10.0.0.1", lit "TLSv1.1 RC4"); (lit "10.0.0.2", lit "TLSv1.1 RC4")].
Proof.
  refine (proj2 (proj2 (proj2 (proj2 (proj2
            (scan_results_of_targets later [lit "10.0.0.1"; lit "10.0.0.2"])))))
            _).
  repeat constructor; simpl; intuition discriminate.
Defined.

Lemma length_distinct (l l' : list str) :
  NoDup l -> (forall t, In t l <-> In t l') ->
  length l = length (nodup str_eq_dec l').
Proof.
  intros Hnd Hiff. apply Nat.le_antisymm; apply NoDup_incl_length.
  - exact Hnd.
  - intros t Ht. apply nodup_In, Hiff. exact Ht.
  - apply NoDup_nodup.
  - intros t Ht. apply Hiff. apply nodup_In in Ht. exact Ht.
Qed.

(** X4.  When the targets file exists and lists a target, the report
    of [run_ssl_scan] is the cover image if there is one, a cover page
    dated with the clock's reading, the summary page and one
    Scan Results page for each distinct target: at least 3 pages. *)
Theorem report_of_scan (w : World) (targets_file output_pdf : str) :
  path_exists w targets_file = true ->
  read_targets (read_text w targets_file) <> [] ->
  let targets := read_targets (read_text w targets_file) in
  let r := fold_left (scan_step w) targets [] in
  let f := load_fonts w in
  exists doc cover,
    run_ssl_scan w targets_file output_pdf = Ok (Some doc)
    /\ pages doc
       = cover_image w
         ++ [cover; summary_page f (fst (classify r)) (snd (classify r))]
         ++ map (detail_page f) r
    /\ In (Text (100, 350) (lit "Date: " ++ now w) (header_font f) Black)
          (image_ops cover)
    /\ length (pages doc)
       = (length (cover_image w) + 2
          + length (nodup str_eq_dec targets))%nat
    /\ (3 <= length (pages doc))%nat.
Proof.
  intros Hfile Hne. cbv zeta. rewrite run_ssl_scan_unfold, Hfile. simpl negb. cbv iota.
  destruct (read_targets (read_text w targets_file)) as [|t ts] eqn:E;
    [congruence|].
  cbv beta iota.
  assert (Hwf : wf_dict (fold_left (scan_step w) (t :: ts) []))
    by (apply scan_results_wf; constructor).
  assert (Hkeys : forall x, In x (keys (fold_left (scan_step w) (t :: ts) []))
                            <-> In x (t :: ts)).
  { intros x. destruct (scan_loop w (t :: ts) []) as [H _]. cbv zeta in H.
    rewrite H. simpl. tauto. }
  assert (Hpos : (1 <= length (nodup str_eq_dec (t :: ts)))%nat).
  { assert (Hin : In t (nodup str_eq_dec (t :: ts)))
      by (apply nodup_In; left; reflexivity).
    destruct (nodup str_eq_dec (t :: ts)); [destruct Hin | simpl; lia]. }
  remember (t :: ts) as targets eqn:Et.
  remember (fold_left (scan_step w) targets []) as r eqn:Er.
  assert (Hlen : length r = length (nodup str_eq_dec targets)).
  { rewrite <- (length_map fst). apply length_distinct; assumption. }
  rewrite create_pdf_total. cbv zeta. simpl bind.
  eexists. eexists. split; [reflexivity|]. simpl pages.
  split; [reflexivity|]. split.
  - unfold cover_drawing, image_ops. simpl. tauto.
  - rewrite length_app. simpl length. rewrite length_map, Hlen. lia.
Qed.

Lemma report_of_scan_witness :
  exists doc,
    run_ssl_scan later (lit "targets.txt") (lit "report.pdf") = Ok (Some doc)
    /\ (3 <= length (pages doc))%nat.
Proof.
  destruct (report_of_scan later (lit "targets.txt") (lit "report.pdf"))
    as [doc [cover [H [_ [_ [_ Hlen]]]]]].
  - reflexivity.
  - vm_compute. discriminate.
  - exists doc. split; [exact H | exact Hlen].
Defined.

(** ** Fonts *)

Lemma draw_strong_fonts (f : fonts) (targets : list str) :
  forall y, Forall (in_fonts f) (fst (draw_strong f y targets)).
Proof.
  induction targets as [|t ts IH]; intros y; simpl; [constructor|].
  specialize (IH (y + 30)). destruct (draw_strong f (y + 30) ts) as [ops y'].
  simpl in *. constructor; [simpl; auto | exact IH].
Qed.

Lemma draw_issues_fonts (f : fonts) (issues : list str) :
  forall y, Forall (in_fonts f) (fst (draw_issues f y issues)).
Proof.
  induction issues as [|issue rest IH]; intros y; simpl; [constructor|].
  specialize (IH (y + 25)). destruct (draw_issues f (y + 25) rest) as [ops y'].
  simpl in *. constructor; [simpl; auto | exact IH].
Qed.

Lemma draw_weak_fonts (f : fonts) (items : dict (list str)) :
  forall y, Forall (in_fonts f) (fst (draw_weak f y items)).
Proof.
  induction items as [|[t issues] rest IH]; intros y; simpl; [constructor|].
  pose proof (draw_issues_fonts f issues (y + 30)) as H1.
  destruct (draw_issues f (y + 30) issues) as [ops1 y1].
  specialize (IH (y1 + 20)). destruct (draw_weak f (y1 + 20) rest) as [ops2 y2].
  simpl in *. constructor; [simpl; auto|]. apply Forall_app. auto.
Qed.

Lemma draw_lines_fonts (f : fonts) (lines : list str) :
  forall y, Forall (in_fonts f) (draw_lines f y lines).
Proof.
  induction lines as [|l ls IH]; intros y; [constructor|].
  rewrite draw_lines_step. destruct (y >? 1300); constructor; [|apply IH].
  simpl. auto.
Qed.

Lemma summary_page_sections (f : fonts) (strong_targets : list str)
    (weak_targets : dict (list str)) :
  summary_page f strong_targets weak_targets
  = Drawn (1000, 1400) White
      ([Text (100, 150) (lit " Strong Cipher Configuration:")
             (header_font f) Black]
       ++ fst (strong_section f strong_targets)
       ++ [Text (100, snd (strong_section f strong_targets) + 50)
                (lit " Weak Ciphers/Protocols Detected:") (header_font f) Black]
       ++ weak_section f (snd (strong_section f strong_targets) + 50 + 50)
            weak_targets).
Proof.
  unfold summary_page, strong_section, weak_section.
  change (150 + 50) with 200. change (200 + 30) with 230.
  destruct strong_targets as [|t ts].
  - destruct weak_targets; reflexivity.
  - destruct (draw_strong f 200 (t :: ts)) as [ops y].
    destruct weak_targets; reflexivity.
Qed.

Lemma summary_page_fonts (f : fonts) (strong_targets : list str)
    (weak_targets : dict (list str)) :
  Forall (in_fonts f) (image_ops (summary_page f strong_targets weak_targets)).
Proof.
  rewrite summary_page_sections. unfold image_ops.
  repeat (apply Forall_app; split).
  - constructor; [simpl; auto | constructor].
  - unfold strong_section. destruct strong_targets.
    + constructor; [simpl; auto | constructor].
    + apply draw_strong_fonts.
  - constructor; [simpl; auto | constructor].
  - unfold weak_section. destruct weak_targets.
    + constructor; [simpl; auto | constructor].
    + apply draw_weak_fonts.
Qed.

Lemma report_fonts (w : World) (scan_results : dict str)
    (output_pdf scan_date : str) :
  exists doc,
    create_pdf w scan_results output_pdf scan_date = Ok doc
    /\ forall page, In page (pages doc) ->
                    Forall (in_fonts (load_fonts w)) (image_ops page).
Proof.
  rewrite create_pdf_total. cbv zeta. eexists. split; [reflexivity|].
  simpl pages. intros page Hpage.
  apply in_app_or in Hpage as [Hpage | [<- | [<- | Hpage]]].
  - unfold cover_image in Hpage.
    destruct (path_exists w COVER_IMAGE_PATH); [|destruct Hpage].
    destruct Hpage as [<- | []]. constructor.
  - unfold cover_drawing, image_ops.
    repeat (apply Forall_cons; [simpl; auto|]). constructor.
  - apply summary_page_fonts.
  - apply in_map_iff in Hpage as [[target output] [<- _]].
    unfold detail_page, image_ops.
    constructor; [simpl; auto|]. constructor; [exact I|]. apply draw_lines_fonts.
Qed.

(** X5.  The fonts are loaded all or none: when one of the two font
    files is not found, every text of every page of the report is drawn
    in the default font; when both are found, every text is drawn in
    Times New Roman Bold at 50 or Times New Roman at 35 or 22. *)
Theorem fonts_all_or_none (w : World) (scan_results : dict str)
    (output_pdf scan_date : str) :
  exists doc,
    create_pdf w scan_results output_pdf scan_date = Ok doc
    /\ forall page op fnt,
         In page (pages doc) -> In op (image_ops page) ->
         op_font op = Some fnt ->
         if font_found w (lit "Times New Roman Bold.ttf")
            && font_found w (lit "Times New Roman.ttf")
         then fnt = TrueType (lit "Times New Roman Bold.ttf") 50
              \/ fnt = TrueType (lit "Times New Roman.ttf") 35
              \/ fnt = TrueType (lit "Times New Roman.ttf") 22
         else fnt = DefaultFont.
Proof.
  destruct (report_fonts w scan_results output_pdf scan_date) as [doc [H Hall]].
  exists doc. split; [exact H|]. intros page op fnt Hpage Hop Hfnt.
  specialize (Hall page Hpage). rewrite Forall_forall in Hall.
  specialize (Hall op Hop). destruct op as [? ? ? ? ?|xy text fnt' fill];
    [discriminate|].
  simpl in Hfnt. injection Hfnt as ->. simpl in Hall. unfold load_fonts in Hall.
  destruct (font_found w (lit "Times New Roman Bold.ttf")
            && font_found w (lit "Times New Roman.ttf")); simpl in Hall; tauto.
Qed.

Lemma fonts_all_or_none_witness :
  exists doc,
    create_pdf offline tls10_scenario (lit "report.pdf") (now offline) = Ok doc
    /\ forall page, In page (pages doc) ->
         forall op, In op (image_ops page) ->
           forall fnt, op_font op = Some fnt -> fnt = DefaultFont.
Proof.
  destruct (fonts_all_or_none offline tls10_scenario (lit "report.pdf")
              (now offline)) as [doc [H Hall]].
  exists doc. split; [exact H|]. intros page Hpage op Hop fnt Hfnt.
  exact (Hall page op fnt Hpage Hop Hfnt).
Defined.

(** ** The cursor of the summary page *)

Ltac cursor := cbv [op_y]; lia.

Lemma within_nil (lo hi : Z) : within lo hi [].
Proof. split; constructor. Qed.

Lemma within_cons (lo mid hi : Z) (op : draw_op) (ops : list draw_op) :
  lo <= op_y op -> op_y op < mid -> mid <= hi ->
  within mid hi ops -> within lo hi (op :: ops).
Proof.
  intros Hlo Hmid Hhi [Hband Hsorted]. split.
  - constructor; [lia|]. eapply Forall_impl; [|exact Hband].
    simpl. intros a Ha. lia.
  - simpl. constructor; [exact Hsorted|]. apply Forall_map.
    eapply Forall_impl; [|exact Hband]. simpl. intros a Ha. lia.
Qed.

Lemma within_app (a b c : Z) (l1 l2 : list draw_op) :
  a <= b -> b <= c -> within a b l1 -> within b c l2 -> within a c (l1 ++ l2).
Proof.
  intros Hab Hbc [H1 S1] H2. induction l1 as [|op l1 IH]; simpl.
  - destruct H2 as [H2 S2]. split; [|exact S2].
    eapply Forall_impl; [|exact H2]. simpl. intros x Hx. lia.
  - inversion H1 as [|? ? Hop H1']; subst.
    simpl in S1. inversion S1 as [|? ? S1' Hlt]; subst.
    destruct (IH H1' S1') as [Hband Hsorted]. split.
    + constructor; [lia | exact Hband].
    + simpl. constructor; [exact Hsorted|]. rewrite map_app.
      apply Forall_app. split; [exact Hlt|]. apply Forall_map.
      destruct H2 as [H2 _]. eapply Forall_impl; [|exact H2].
      simpl. intros x Hx. lia.
Qed.

Lemma draw_strong_cursor (f : fonts) (targets : list str) :
  forall y,
    snd (draw_strong f y targets) = y + 30 * Z.of_nat (length targets)
    /\ within y (snd (draw_strong f y targets)) (fst (draw_strong f y targets)).
Proof.
  induction targets as [|t ts IH]; intros y.
  - simpl. split; [lia | apply within_nil].
  - simpl draw_strong. destruct (IH (y + 30)) as [Hy Hw].
    destruct (draw_strong f (y + 30) ts) as [ops y']. cbn [fst snd] in *.
    subst y'. split; [rewrite length_cons; lia|].
    apply (within_cons y (y + 30)); [cursor | cursor | lia | exact Hw].
Qed.

Lemma draw_issues_cursor (f : fonts) (issues : list str) :
  forall y,
    snd (draw_issues f y issues) = y + 25 * Z.of_nat (length issues)
    /\ within y (snd (draw_issues f y issues)) (fst (draw_issues f y issues)).
Proof.
  induction issues as [|issue rest IH]; intros y.
  - simpl. split; [lia | apply within_nil].
  - simpl draw_issues. destruct (IH (y + 25)) as [Hy Hw].
    destruct (draw_issues f (y + 25) rest) as [ops y']. cbn [fst snd] in *.
    subst y'. split; [rewrite length_cons; lia|].
    apply (within_cons y (y + 25)); [cursor | cursor | lia | exact Hw].
Qed.

Lemma draw_weak_cursor (f : fonts) (items : dict (list str)) :
  forall y,
    snd (draw_weak f y items)
    = y + 50 * Z.of_nat (length items) + 25 * Z.of_nat (issue_count items)
    /\ within y (snd (draw_weak f y items)) (fst (draw_weak f y items)).
Proof.
  unfold issue_count.
  induction items as [|[t issues] rest IH]; intros y.
  - simpl. split; [lia | apply within_nil].
  - simpl draw_weak. destruct (draw_issues_cursor f issues (y + 30)) as [Hy1 Hw1].
    destruct (draw_issues f (y + 30) issues) as [ops1 y1]. cbn [fst snd] in Hy1, Hw1.
    destruct (IH (y1 + 20)) as [Hy2 Hw2].
    destruct (draw_weak f (y1 + 20) rest) as [ops2 y2]. cbn [fst snd] in Hy2, Hw2.
    cbn [fst snd map list_sum fold_right]. unfold list_sum in *.
    split; [rewrite length_cons; lia|].
    apply (within_cons y (y + 30)); [cursor | cursor | lia |].
    apply (within_app (y + 30) (y1 + 20) y2); try lia; [|exact Hw2].
    destruct Hw1 as [Hb Hs]. split; [|exact Hs].
    eapply Forall_impl; [|exact Hb]. simpl. intros a Ha. lia.
Qed.

Lemma strong_section_cursor (f : fonts) (strong_targets : list str) :
  snd (strong_section f strong_targets)
  = 200 + 30 * Z.of_nat (Nat.max 1 (length strong_targets))
  /\ within 200 (snd (strong_section f strong_targets))
            (fst (strong_section f strong_targets)).
Proof.
  unfold strong_section. destruct strong_targets as [|t ts].
  - simpl. split; [reflexivity|].
    apply (within_cons 200 230); [cursor | cursor | lia | apply within_nil].
  - destruct (draw_strong_cursor f (t :: ts) 200) as [Hy Hw].
    split; [|exact Hw]. rewrite Hy. simpl length. lia.
Qed.

Lemma weak_section_cursor (f : fonts) (y : Z) (weak_targets : dict (list str)) :
  within y (y + 50 * Z.of_nat (Nat.max 1 (length weak_targets))
              + 25 * Z.of_nat (issue_count weak_targets))
         (weak_section f y weak_targets).
Proof.
  unfold weak_section. destruct weak_targets as [|item rest].
  - apply (within_cons y (y + 50)); [cursor | cursor | lia | apply within_nil].
  - destruct (draw_weak_cursor f (item :: rest) y) as [Hy Hw].
    rewrite Hy in Hw. simpl length in *.
    replace (Nat.max 1 (S (length rest))) with (S (length rest)) by lia.
    exact Hw.
Qed.

(** X6.  On the summary page the cursor only moves down: each text is
    drawn strictly below the one before, from 150 on.  The heading of
    the weak section is at [250 + 30 n] for [n] strong targets (n = 1
    when there is none), and every text is above
    [300 + 30 n + 50 m + 25 k] for [m] weak targets (m = 1 when there
    is none) with [k] matched lines in all: no bound is applied. *)
Theorem summary_cursor_moves_down (f : fonts) (strong_targets : list str)
    (weak_targets : dict (list str)) :
  let ops := image_ops (summary_page f strong_targets weak_targets) in
  let n := Z.of_nat (Nat.max 1 (length strong_targets)) in
  let m := Z.of_nat (Nat.max 1 (length weak_targets)) in
  let k := Z.of_nat (issue_count weak_targets) in
  StronglySorted Z.lt (map op_y ops)
  /\ Forall (fun op => 150 <= op_y op < 300 + 30 * n + 50 * m + 25 * k) ops
  /\ hd_error ops
     = Some (Text (100, 150) (lit " Strong Cipher Configuration:")
                  (header_font f) Black)
  /\ In (Text (100, 250 + 30 * n) (lit " Weak Ciphers/Protocols Detected:")
              (header_font f) Black) ops.
Proof.
  cbv zeta. rewrite summary_page_sections. unfold image_ops.
  destruct (strong_section_cursor f strong_targets) as [Hy Hs].
  pose proof (weak_section_cursor f
                (snd (strong_section f strong_targets) + 50 + 50) weak_targets)
    as Hw.
  rewrite Hy in *.
  set (n := Z.of_nat (Nat.max 1 (length strong_targets))) in *.
  set (m := Z.of_nat (Nat.max 1 (length weak_targets))) in *.
  set (k := Z.of_nat (issue_count weak_targets)) in *.
  assert (Hn : 1 <= n) by (unfold n; lia).
  assert (Hm : 1 <= m) by (unfold m; lia).
  assert (Hk : 0 <= k) by (unfold k; lia).
  assert (Hall : within 150 (300 + 30 * n + 50 * m + 25 * k)
            ([Text (100, 150) (lit " Strong Cipher Configuration:")
                   (header_font f) Black]
             ++ fst (strong_section f strong_targets)
             ++ [Text (100, 200 + 30 * n + 50)
                      (lit " Weak Ciphers/Protocols Detected:")
                      (header_font f) Black]
             ++ weak_section f (200 + 30 * n + 50 + 50) weak_targets)).
  { apply (within_app 150 200); try lia.
    - apply (within_cons 150 200); [cursor | cursor | lia | apply within_nil].
    - apply (within_app 200 (200 + 30 * n)); try lia; [exact Hs|].
      apply (within_app (200 + 30 * n) (200 + 30 * n + 50 + 50)); try lia.
      + apply (within_cons _ (200 + 30 * n + 50 + 50));
          [cursor | cursor | lia | apply within_nil].
      + replace (300 + 30 * n + 50 * m + 25 * k)
          with (200 + 30 * n + 50 + 50 + 50 * m + 25 * k) by lia.
        exact Hw. }
  destruct Hall as [Hband Hsorted].
  split; [exact Hsorted|]. split; [exact Hband|]. split; [reflexivity|].
  apply in_or_app. right. apply in_or_app. right. left.
  replace (250 + 30 * n) with (200 + 30 * n + 50) by lia. reflexivity.
Qed.

(** ** What the summary page writes *)

Lemma draw_strong_nth (f : fonts) (targets : list str) :
  forall (y : Z) (i : nat),
    nth_error (fst (draw_strong f y targets)) i
    = option_map (fun t => Text (120, y + 30 * Z.of_nat i) (lit " " ++ t)
                                (body_font f) Black)
                 (nth_error targets i).
Proof.
  induction targets as [|t ts IH]; intros y i.
  - destruct i; reflexivity.
  - simpl draw_strong. specialize (IH (y + 30)).
    destruct (draw_strong f (y + 30) ts) as [ops y']. cbn [fst] in *.
    destruct i as [|i].
    + cbn [nth_error option_map]. replace (y + 30 * Z.of_nat 0) with y by lia.
      reflexivity.
    + cbn [nth_error]. rewrite IH.
      replace (y + 30 + 30 * Z.of_nat i) with (y + 30 * Z.of_nat (S i)) by lia.
      reflexivity.
Qed.

Lemma draw_issues_ops (f : fonts) (issues : list str) :
  forall y,
    map op_text (fst (draw_issues f y issues))
    = map (fun issue => Some (lit " " ++ strip issue)) issues
    /\ forallb is_red (fst (draw_issues f y issues)) = true.
Proof.
  induction issues as [|issue rest IH]; intros y; [split; reflexivity|].
  simpl draw_issues. destruct (IH (y + 25)) as [Ht Hr].
  destruct (draw_issues f (y + 25) rest) as [ops y']. cbn [fst] in *.
  split; [cbn [map op_text]; rewrite Ht; reflexivity|].
  cbn [forallb is_red]. rewrite Hr. reflexivity.
Qed.

Lemma draw_weak_texts (f : fonts) (items : dict (list str)) :
  forall y,
    map op_text (fst (draw_weak f y items))
    = map Some (weak_section_texts items).
Proof.
  unfold weak_section_texts.
  induction items as [|[t issues] rest IH]; intros y; [reflexivity|].
  simpl draw_weak. destruct (draw_issues_ops f issues (y + 30)) as [H1 _].
  destruct (draw_issues f (y + 30) issues) as [ops1 y1]. cbn [fst] in H1.
  specialize (IH (y1 + 20)).
  destruct (draw_weak f (y1 + 20) rest) as [ops2 y2]. cbn [fst] in *.
  cbn [flat_map fst snd map op_text]. rewrite !map_app, H1, IH.
  cbn [map]. rewrite map_map. reflexivity.
Qed.

Lemma draw_strong_texts (f : fonts) (targets : list str) :
  forall y,
    map op_text (fst (draw_strong f y targets))
    = map (fun t => Some (lit " " ++ t)) targets.
Proof.
  induction targets as [|t ts IH]; intros y; [reflexivity|].
  simpl draw_strong. specialize (IH (y + 30)).
  destruct (draw_strong f (y + 30) ts) as [ops y']. cbn [fst] in *.
  cbn [map op_text]. rewrite IH. reflexivity.
Qed.

Lemma length_weak_section_texts (items : dict (list str)) :
  length (weak_section_texts items) = (length items + issue_count items)%nat.
Proof.
  unfold weak_section_texts, issue_count, list_sum.
  induction items as [|[t issues] rest IH]; [reflexivity|].
  simpl. rewrite length_app, length_map. simpl in IH. unfold str in *.
  rewrite IH. lia.
Qed.

(** X7.  The summary page writes, in this order: the heading of the
    strong section; each strong target after a space, or one line saying
    there is none; the heading of the weak section; and for each weak
    target its name between a space and a colon followed by each of its
    matched lines, stripped, after a space, or one line saying there is
    none.  No target and no matched line is left out. *)
Theorem summary_lists_everything (f : fonts) (strong_targets : list str)
    (weak_targets : dict (list str)) :
  map op_text (image_ops (summary_page f strong_targets weak_targets))
  = map Some
      ([lit " Strong Cipher Configuration:"]
       ++ match strong_targets with
          | [] => [lit " No strong cipher configurations found!"]
          | _ :: _ => map (fun t => lit " " ++ t) strong_targets
          end
       ++ [lit " Weak Ciphers/Protocols Detected:"]
       ++ match weak_targets with
          | [] => [lit " No weak configurations detected!"]
          | _ :: _ => weak_section_texts weak_targets
          end)
  /\ length (image_ops (summary_page f strong_targets weak_targets))
     = (2 + Nat.max 1 (length strong_targets)
        + match weak_targets with
          | [] => 1
          | _ :: _ => length weak_targets + issue_count weak_targets
          end)%nat.
Proof.
  assert (Htexts :
    map op_text (image_ops (summary_page f strong_targets weak_targets))
    = map Some
        ([lit " Strong Cipher Configuration:"]
         ++ match strong_targets with
            | [] => [lit " No strong cipher configurations found!"]
            | _ :: _ => map (fun t => lit " " ++ t) strong_targets
            end
         ++ [lit " Weak Ciphers/Protocols Detected:"]
         ++ match weak_targets with
            | [] => [lit " No weak configurations detected!"]
            | _ :: _ => weak_section_texts weak_targets
            end)).
  { rewrite summary_page_sections. unfold image_ops.
    rewrite !map_app. f_equal. f_equal; [|f_equal].
    - unfold strong_section. destruct strong_targets as [|t ts]; [reflexivity|].
      rewrite draw_strong_texts, map_map. reflexivity.
    - unfold weak_section. destruct weak_targets as [|item rest]; [reflexivity|].
      apply draw_weak_texts. }
  split; [exact Htexts|].
  rewrite <- (length_map op_text), Htexts, length_map, !length_app.
  pose proof length_weak_section_texts as Hweak.
  destruct strong_targets as [|t ts]; destruct weak_targets as [|item rest];
    unfold str in *; rewrite ?Hweak, ?length_map; cbn [length]; lia.
Qed.

(** X8.  Strong target number [i] (from 0) is written on the summary
    page at x = 120 and y = 200 + 30 i, in black, whatever [i] is: the
    summary page has no last line. *)
Theorem strong_target_position (f : fonts) (strong_targets : list str)
    (weak_targets : dict (list str)) (i : nat) (target : str) :
  nth_error strong_targets i = Some target ->
  nth_error (image_ops (summary_page f strong_targets weak_targets)) (S i)
  = Some (Text (120, 200 + 30 * Z.of_nat i) (lit " " ++ target)
               (body_font f) Black).
Proof.
  intros Hi. rewrite summary_page_sections. unfold image_ops.
  cbn [app nth_error]. unfold strong_section.
  destruct strong_targets as [|t ts]; [destruct i; discriminate|].
  assert (Hlen : (i < length (fst (draw_strong f 200 (t :: ts))))%nat).
  { apply nth_error_Some. rewrite draw_strong_nth, Hi. discriminate. }
  rewrite nth_error_app1 by exact Hlen.
  rewrite draw_strong_nth, Hi. reflexivity.
Qed.

Lemma strong_target_position_witness :
  nth_error (image_ops (summary_page (load_fonts offline)
                          (repeat (lit "10.0.0.1") 50) [])) 50
  = Some (Text (120, 1670) (lit " 10.0.0.1") DefaultFont Black).
Proof.
  apply (strong_target_position (load_fonts offline)
           (repeat (lit "10.0.0.1") 50) [] 49 (lit "10.0.0.1")).
  reflexivity.
Defined.

(** ** More on classification *)

(** X9.  On a well-formed mapping the classification loop is two
    filters: the strong targets are the targets whose output holds no
    catalog marker, in the order of the mapping, and the weak dictionary
    holds the other targets, in the order of the mapping, each with the
    lines of its output that hold a marker. *)
Theorem classification_keeps_order (scan_results : dict str) :
  wf_dict scan_results ->
  fst (classify scan_results)
  = map fst (filter (fun item => negb (any_weak (snd item))) scan_results)
  /\ snd (classify scan_results)
     = map (fun item =>
              (fst item, filter any_weak (split (snd item) newline)))
           (filter (fun item => any_weak (snd item)) scan_results).
Proof.
  intros Hwf. rewrite (classify_closed _ Hwf). split; reflexivity.
Qed.

Lemma classification_keeps_order_witness :
  fst (classify [(lit "a", lit "fine"); (lit "b", lit "RC4"); (lit "c", lit "ok")])
  = map fst (filter (fun item => negb (any_weak (snd item)))
               [(lit "a", lit "fine"); (lit "b", lit "RC4"); (lit "c", lit "ok")]).
Proof.
  refine (proj1 (classification_keeps_order
                   [(lit "a", lit "fine"); (lit "b", lit "RC4");
                    (lit "c", lit "ok")] _)).
  repeat constructor; simpl; intuition discriminate.
Defined.

Lemma filter_some {A} (p : A -> bool) (l : list A) :
  existsb p l = true -> filter p l <> [].
Proof.
  intros H. apply existsb_exists in H as [x [Hx Hp]].
  intros E. assert (Hin : In x (filter p l)) by (apply filter_In; auto).
  rewrite E in Hin. destruct Hin.
Qed.

(** X10.  Every entry of the weak dictionary belongs to a target of
    the mapping, holds at least one line, each of its lines holds a
    catalog marker and no newline, and its target is not among the strong
    targets. *)
Theorem weak_entries_hold_marked_lines
    (scan_results : dict str) (target : str) (issues : list str) :
  wf_dict scan_results ->
  In (target, issues) (snd (classify scan_results)) ->
  issues <> []
  /\ Forall (fun line => any_weak line = true /\ ~ In newline line) issues
  /\ ~ In target (fst (classify scan_results))
  /\ exists output,
       In (target, output) scan_results
       /\ issues = filter any_weak (split output newline).
Proof.
  intros Hwf Hin. rewrite (classify_closed _ Hwf) in *. simpl fst. simpl snd in Hin.
  apply in_weak_of in Hin as [output [Hout [E ->]]]. unfold matched_lines.
  split; [|split; [|split]].
  - apply filter_some. rewrite <- any_weak_split. exact E.
  - apply Forall_forall. intros line Hl. apply filter_In in Hl as [Hl Hw].
    split; [exact Hw|]. exact (split_pieces_no_sep newline output line Hl).
  - rewrite (strong_iff _ _ _ Hwf Hout). congruence.
  - exists output. auto.
Qed.

Lemma weak_entries_hold_marked_lines_witness :
  exists output,
    In (lit "10.0.0.1", output) tls10_scenario
    /\ [lit "TLSv1.0 enabled"] = filter any_weak (split output newline).
Proof.
  refine (proj2 (proj2 (proj2 (weak_entries_hold_marked_lines tls10_scenario
                   (lit "10.0.0.1") [lit "TLSv1.0 enabled"] _ _)))).
  - repeat constructor; simpl; intuition discriminate.
  - vm_compute. left. reflexivity.
Defined.

(** X11.  A weak target is counted among the High-Risk Findings exactly
    when the concatenation of its matched lines holds "TLS 1.0" (with a
    space) or "RC4". *)
Theorem high_risk_iff_joined_lines
    (scan_results : dict str) (target output : str) :
  wf_dict scan_results ->
  In (target, output) scan_results ->
  any_weak output = true ->
  exists high,
    high_risk (snd (classify scan_results)) = Ok high
    /\ (In target high <->
        contains (join_empty (matched_lines output)) (lit "TLS 1.0") = true
        \/ contains (join_empty (matched_lines output)) (lit "RC4") = true).
Proof.
  intros Hwf Hin E. rewrite (classify_closed _ Hwf). simpl snd.
  rewrite high_risk_total. eexists. split; [reflexivity|].
  rewrite high_member, (weak_of_get _ _ _ Hwf Hin), E. split.
  - intros [issues [H Hc]]. injection H as <-. apply orb_true_iff. exact Hc.
  - intros Hc. exists (matched_lines output). split; [reflexivity|].
    apply orb_true_iff. exact Hc.
Qed.

Lemma high_risk_iff_joined_lines_witness :
  exists high,
    high_risk (snd (classify [(lit "h", lit "TLS 1.0 with 3DES")])) = Ok high
    /\ In (lit "h") high.
Proof.
  destruct (high_risk_iff_joined_lines [(lit "h", lit "TLS 1.0 with 3DES")]
              (lit "h") (lit "TLS 1.0 with 3DES")) as [high [H Hiff]].
  - repeat constructor; simpl; intuition discriminate.
  - left; reflexivity.
  - reflexivity.
  - exists high. split; [exact H|]. apply Hiff. left. reflexivity.
Defined.

Lemma filter_length_bound {A} (p : A -> bool) (l : list A) :
  (length (filter p l) <= length l)%nat.
Proof. induction l as [|x l IH]; simpl; [lia|]. destruct (p x); simpl; lia. Qed.

(** X12.  The numbers of the cover page are ordered: the High-Risk and
    the Medium-Risk findings are each at most the number of weak targets,
    which is at most the number of targets; only weak targets are
    counted, never a strong one. *)
Theorem risk_counts_bounded (scan_results : dict str) :
  wf_dict scan_results ->
  let strong_targets := fst (classify scan_results) in
  let weak_targets := snd (classify scan_results) in
  exists high medium,
    high_risk weak_targets = Ok high
    /\ medium_risk weak_targets = Ok medium
    /\ (length high <= length weak_targets <= length scan_results)%nat
    /\ (length medium <= length weak_targets)%nat
    /\ (forall t, In t high \/ In t medium ->
                  In t (keys weak_targets) /\ ~ In t strong_targets).
Proof.
  intros Hwf. cbv zeta. rewrite (classify_closed _ Hwf). simpl fst. simpl snd.
  rewrite high_risk_total, medium_risk_total. eexists. eexists.
  split; [reflexivity|]. split; [reflexivity|].
  assert (Hk : length (keys (weak_of scan_results))
               = length (weak_of scan_results)) by apply length_map.
  pose proof (length_strong_weak scan_results) as Hsum.
  pose proof (filter_length_bound (high_cond (weak_of scan_results))
                (keys (weak_of scan_results))) as Hh.
  pose proof (filter_length_bound (medium_cond (weak_of scan_results))
                (keys (weak_of scan_results))) as Hm.
  split; [lia|]. split; [lia|].
  intros t Ht.
  assert (Hkey : In t (keys (weak_of scan_results))).
  { destruct Ht as [Ht | Ht]; apply filter_In in Ht; tauto. }
  split; [exact Hkey|].
  rewrite keys_weak_of in Hkey. apply in_map_iff in Hkey as [[t' o] [Et Ho]].
  apply filter_In in Ho as [Ho Hw]. simpl in Et. subst t'.
  rewrite (strong_iff _ _ _ Hwf Ho). unfold is_weak_item in Hw. simpl in Hw.
  congruence.
Qed.

Lemma risk_counts_bounded_witness :
  exists high,
    high_risk (snd (classify tls10_scenario)) = Ok high
    /\ (length high <= 1)%nat.
Proof.
  destruct (risk_counts_bounded tls10_scenario)
    as [high [medium [H [_ [[Hlen _] _]]]]].
  - repeat constructor; simpl; intuition discriminate.
  - exists high. split; [exact H | exact Hlen].
Defined.

(** ** More on the Scan Results pages *)

Lemma length_split (s : str) (sep : char) :
  length (split s sep) = S (count_occ N.eq_dec s sep).
Proof.
  induction s as [|c s IH]; [reflexivity|].
  simpl split. simpl count_occ. destruct (N.eqb c sep) eqn:E.
  - apply N.eqb_eq in E. destruct (N.eq_dec c sep); [|contradiction].
    simpl. rewrite IH. reflexivity.
  - apply N.eqb_neq in E. destruct (N.eq_dec c sep); [contradiction|].
    pose proof (split_not_nil s sep) as Hne.
    destruct (split s sep) as [|l ls]; [congruence|]. exact IH.
Qed.

(** X13.  A Scan Results page draws as many lines as the output has
    newline characters, plus one, up to 44; for an empty output it
    draws one empty line, in black. *)
Theorem detail_line_count (f : fonts) (output : str) :
  length (draw_lines f 220 (split output newline))
  = Nat.min 44 (S (count_occ N.eq_dec output newline))
  /\ draw_lines f 220 (split [] newline)
     = [Text (70, 220) [] (body_font f) Black].
Proof.
  split; [|reflexivity].
  rewrite draw_lines_first_44, length_place, length_firstn, length_split.
  reflexivity.
Qed.

Lemma place_red (f : fonts) (lines : list str) :
  forall y,
    map op_text (filter is_red (place f y lines))
    = map Some (filter any_weak lines).
Proof.
  induction lines as [|l ls IH]; intros y; [reflexivity|].
  simpl place. unfold line_op at 1. simpl filter.
  destruct (any_weak l); simpl; rewrite IH; reflexivity.
Qed.

(** X14.  The red lines of a Scan Results page are the matched lines
    among the first 44 lines of the output, in order; the matched lines
    of the summary page are these followed by the matched lines after
    line 44, which the Scan Results page does not show. *)
Theorem red_lines_are_early_matches (f : fonts) (output : str) :
  map op_text (filter is_red (draw_lines f 220 (split output newline)))
  = map Some (filter any_weak (firstn 44 (split output newline)))
  /\ filter any_weak (split output newline)
     = filter any_weak (firstn 44 (split output newline))
       ++ filter any_weak (skipn 44 (split output newline)).
Proof.
  split.
  - rewrite draw_lines_first_44. apply place_red.
  - rewrite <- filter_app, firstn_skipn. reflexivity.
Qed.

Lemma join_split (s : str) (sep : char) : join [sep] (split s sep) = s.
Proof.
  induction s as [|c s IH]; [reflexivity|].
  pose proof (split_not_nil s sep) as Hne.
  simpl split. destruct (N.eqb c sep) eqn:E.
  - apply N.eqb_eq in E. subst c.
    destruct (split s sep) as [|l ls]; [congruence|].
    change (join [sep] ([] :: l :: ls)) with ([] ++ [sep] ++ join [sep] (l :: ls)).
    rewrite IH. reflexivity.
  - destruct (split s sep) as [|l ls]; [congruence|].
    destruct ls as [|l' ls].
    + simpl in *. rewrite IH. reflexivity.
    + change (join [sep] ((c :: l) :: l' :: ls))
        with (c :: (l ++ [sep] ++ join [sep] (l' :: ls))).
      change (join [sep] (l :: l' :: ls))
        with (l ++ [sep] ++ join [sep] (l' :: ls)) in IH.
      rewrite IH. reflexivity.
Qed.

Lemma place_texts (f : fonts) (lines : list str) :
  forall y, map op_text (place f y lines) = map Some lines.
Proof.
  induction lines as [|l ls IH]; intros y; [reflexivity|].
  simpl. rewrite IH. reflexivity.
Qed.

(** X15.  An output of at most 44 lines is shown whole on its Scan
    Results page: the texts drawn are the lines of the output, in order,
    and joining them with newlines gives the output back. *)
Theorem short_output_shown_whole (f : fonts) (output : str) :
  (count_occ N.eq_dec output newline < 44)%nat ->
  map op_text (draw_lines f 220 (split output newline))
  = map Some (split output newline)
  /\ join [newline] (split output newline) = output.
Proof.
  intros Hshort. split; [|apply join_split].
  rewrite draw_lines_first_44, place_texts, firstn_all2; [reflexivity|].
  rewrite length_split. lia.
Qed.

Lemma short_output_shown_whole_witness :
  map op_text (draw_lines (load_fonts offline) 220
                 (split (lit "TLSv1.0 enabled" ++ [newline]
                           ++ lit "AES256-GCM strong") newline))
  = [Some (lit "TLSv1.0 enabled"); Some (lit "AES256-GCM strong")].
Proof.
  refine (proj1 (short_output_shown_whole (load_fonts offline)
                   (lit "TLSv1.0 enabled" ++ [newline]
                      ++ lit "AES256-GCM strong") _)).
  vm_compute. lia.
Defined.
